(** * Lane masking in [LLVM_Util] (src/liboslexec/llvm_util.cpp)

    [LLVM_Util] is the code generator behind the batched (SIMD) back end:
    every shader instruction is emitted once and runs on [m_vector_width]
    data lanes.  Divergent control flow is lowered to predication: a stack
    of lane masks, per-function and per-loop persistent mask slots, masked
    control transfers and a masked store.

    The embedding is shallow.  An [llvm::Value *] is identified with the
    run-time value the emitted instruction computes, and emitting an
    instruction is identified with executing it, which is exact for the
    straight-line, branch-free instruction sequences these member
    functions append to the current basic block.  The C++ object is the
    record [LLVM_Util]; the memory of the generated program (the slots
    handed out by [op_alloca]) is one more field of it.  A member function
    is a computation in the monad [M]: it reads and updates the object and
    either returns, or stops on a failed [ASSERT] (the OIIO macro, which
    aborts in every build type), or has no defined behaviour (C++
    undefined behaviour, or an IR instruction whose operands do not
    type-check). *)

From Stdlib Require Import ZArith Lia Bool.
From stdpp Require Import base tactics option list vector.

Local Open Scope Z_scope.

(** ** Outcomes of a member function *)

Inductive result (A : Type) : Type :=
| Ok (a : A)
| AssertionFailed
| Undefined.

Arguments Ok {A} a.
Arguments AssertionFailed {A}.
Arguments Undefined {A}.

(** ** [std::vector] used as a stack

    The vectors of [LLVM_Util] are only ever accessed through
    [push_back], [pop_back], [back], [front], [empty] and [size].  They are
    kept newest first: [back] is the head of the list and [front] its last
    element.  [back] and [pop_back] of an empty vector are undefined
    behaviour in C++; here they have no result. *)

Definition empty {A} (v : list A) : bool :=
  match v with [] => true | _ :: _ => false end.

Definition back {A} (v : list A) : option A := head v.

Definition front {A} (v : list A) : option A := last v.

Arguments front : simpl never.

Definition push_back {A} (x : A) (v : list A) : list A := x :: v.

Definition pop_back {A} (v : list A) : option (list A) :=
  match v with [] => None | _ :: v' => Some v' end.

Definition size {A} (v : list A) : nat := length v.

(** ** C++ [int] counters *)

Definition INT_MAX : Z := 2147483647.

(** [c++] on an [int]: signed overflow is undefined behaviour. *)
Definition incr (c : Z) : result Z :=
  if bool_decide (c < INT_MAX) then Ok (c + 1) else Undefined.

(** Two's complement wrap-around of a value into the range of [int]. *)
Definition wrap_int (z : Z) : Z := (z + 2 ^ 31) mod 2 ^ 32 - 2 ^ 31.

(** [type_wide_bool()] for [W] lanes, that is [<W x i1>]: one boolean per
    lane. *)
Abbreviation wide_bool := (vec bool).

(** An address handed out by [CreateAlloca]. *)
Abbreviation loc := nat.

Section Masking.

(** The lane count, [m_vector_width = SimdLaneCount], fixed when the
    object is built. *)
Context {m_vector_width : nat}.

Local Abbreviation W := m_vector_width.

(** ** Values of the generated program *)



Inductive value : Type :=
| VBool (b : bool)            (* i1 *)
| VInt16 (z : Z)              (* i16, as its unsigned bit pattern *)
| VInt (z : Z)                (* type_int(), i32 *)
| VWideBool (m : wide_bool W)   (* type_wide_bool(), <W x i1> *)
| VWideInt (v : vec Z W).     (* type_wide_int(), <W x i32>; lane payloads *)

(** [val->getType()->isVectorTy()] *)
Definition isVectorTy (val : value) : bool :=
  match val with
  | VWideBool _ | VWideInt _ => true
  | VBool _ | VInt16 _ | VInt _ => false
  end.

(** [val->getType() == type_wide_bool()] *)
Definition is_wide_bool (val : value) : bool :=
  match val with VWideBool _ => true | _ => false end.

(** [val->getType() == type_int()] *)
Definition is_int (val : value) : bool :=
  match val with VInt _ => true | _ => false end.

(** [a->getType() == b->getType()] *)
Definition same_type (a b : value) : bool :=
  match a, b with
  | VBool _, VBool _ | VInt16 _, VInt16 _ | VInt _, VInt _
  | VWideBool _, VWideBool _ | VWideInt _, VWideInt _ => true
  | _, _ => false
  end.

(** ** The IR instructions the masking code emits

    Their meaning is the one of the LLVM language reference.  An
    instruction whose operand types do not fit is ill-formed IR and has no
    result. *)

(** Lane-wise [select <W x i1> c, a, b]. *)
Definition vselect {A} (c : wide_bool W) (a b : vec A W) : vec A W :=
  vzip_with (fun (ci : bool) (ab : A * A) => if ci then ab.1 else ab.2)
            c (vzip_with pair a b).

Definition CreateSelect (c a b : value) : result value :=
  match c, a, b with
  | VWideBool c, VWideBool x, VWideBool y => Ok (VWideBool (vselect c x y))
  | VWideBool c, VWideInt x, VWideInt y => Ok (VWideInt (vselect c x y))
  | VBool c, VBool x, VBool y => Ok (VBool (if c then x else y))
  | VBool c, VInt16 x, VInt16 y => Ok (VInt16 (if c then x else y))
  | VBool c, VInt x, VInt y => Ok (VInt (if c then x else y))
  | VBool c, VWideBool x, VWideBool y => Ok (VWideBool (if c then x else y))
  | VBool c, VWideInt x, VWideInt y => Ok (VWideInt (if c then x else y))
  | _, _, _ => Undefined
  end.

(** [extractelement v, lane_index] *)
Definition CreateExtractElement (v : value) (lane_index : fin W) : result value :=
  match v with
  | VWideBool m => Ok (VBool (m !!! lane_index))
  | VWideInt x => Ok (VInt (x !!! lane_index))
  | _ => Undefined
  end.

(** [wide_constant_bool(b)]: the splat of [b]. *)
Definition wide_constant_bool (b : bool) : value := VWideBool (vreplicate W b).

(** [wide_constant(i)]: the splat of the [int] [i]. *)
Definition wide_constant (i : Z) : value := VWideInt (vreplicate W i).

(** [CreateVectorSplat(m_vector_width, val)] *)
Definition CreateVectorSplat (val : value) : result value :=
  match val with
  | VBool b => Ok (VWideBool (vreplicate W b))
  | VInt z => Ok (VWideInt (vreplicate W z))
  | _ => Undefined
  end.

(** [and a, b] on two's complement integers, lane-wise on vectors. *)
Definition CreateAnd (a b : value) : result value :=
  match a, b with
  | VBool x, VBool y => Ok (VBool (x && y))
  | VInt16 x, VInt16 y => Ok (VInt16 (Z.land x y))
  | VInt x, VInt y => Ok (VInt (Z.land x y))
  | VWideBool x, VWideBool y => Ok (VWideBool (vzip_with andb x y))
  | VWideInt x, VWideInt y => Ok (VWideInt (vzip_with Z.land x y))
  | _, _ => Undefined
  end.

(** [icmp ne a, b] *)
Definition CreateICmpNE (a b : value) : result value :=
  match a, b with
  | VBool x, VBool y => Ok (VBool (xorb x y))
  | VInt16 x, VInt16 y => Ok (VBool (negb (x =? y)))
  | VInt x, VInt y => Ok (VBool (negb (x =? y)))
  | VWideBool x, VWideBool y => Ok (VWideBool (vzip_with xorb x y))
  | VWideInt x, VWideInt y =>
      Ok (VWideBool (vzip_with (fun p q => negb (p =? q)) x y))
  | _, _ => Undefined
  end.

(** The integer whose bit [i] is element [i] of the list: the layout of a
    [<n x i1>] reinterpreted as an [n]-bit integer on a little-endian
    target. *)
Fixpoint pack_bits (l : list bool) : Z :=
  match l with
  | [] => 0
  | b :: l' => Z.b2z b + 2 * pack_bits l'
  end.

(** [bitcast <W x i1> mask to i16].  A bitcast needs source and
    destination of the same bit width, so the instruction exists only for
    sixteen lanes. *)
Definition CreateBitCast_to_i16 (mask : value) : result value :=
  match mask with
  | VWideBool m =>
      if bool_decide (W = 16%nat) then Ok (VInt16 (pack_bits (vec_to_list m)))
      else Undefined
  | VInt16 z => Ok (VInt16 z)
  | _ => Undefined
  end.

(** [bitcast i16 intMask to <W x i1>], under the same width condition. *)
Definition CreateBitCast_to_wide_bool (intMask : value) : result value :=
  match intMask with
  | VInt16 z =>
      if bool_decide (W = 16%nat)
      then Ok (VWideBool (fun_to_vec (fun i : fin W => Z.testbit z (Z.of_nat i))))
      else Undefined
  | VWideBool m => Ok (VWideBool m)
  | _ => Undefined
  end.

(** [trunc i32 value to i16] *)
Definition CreateTrunc_to_i16 (val : value) : result value :=
  match val with
  | VInt z => Ok (VInt16 (z mod 2 ^ 16))
  | _ => Undefined
  end.

(** [zext result to i32] *)
Definition CreateZExt_to_i32 (val : value) : result value :=
  match val with
  | VBool b => Ok (VInt (Z.b2z b))
  | VInt16 z => Ok (VInt (z mod 2 ^ 16))
  | _ => Undefined
  end.

(** ** The object *)

(** [struct MaskInfo { llvm::Value *mask; bool negate;
    int applied_return_mask_count; }] *)
Record MaskInfo : Type := {
  mask : value;
  negate : bool;
  applied_return_mask_count : Z
}.

(** [struct LoopInfo]; a location may be [nullptr]. *)
Record LoopInfo : Type := {
  location_of_condition_mask : option loc;
  location_of_continue_mask : option loc;
  break_count : Z;
  continue_count : Z
}.

Record LLVM_Util : Type := {
  m_supports_native_bit_masks : bool;
  m_mask_stack : list MaskInfo;
  m_enable_masking_stack : list bool;
  m_alloca_for_modified_mask_stack : list loc;
  m_masked_return_count_stack : list Z;
  m_masked_loop_stack : list LoopInfo;
  m_masked_exit_count : Z;
  (** the stack slots of the generated function, indexed by address; a
      slot that was never stored to holds no value *)
  memory : list (option value)
}.

(** The object as the constructor leaves it. *)
Definition new_LLVM_Util (native_bit_masks : bool) : LLVM_Util :=
  {| m_supports_native_bit_masks := native_bit_masks;
     m_mask_stack := [];
     m_enable_masking_stack := [];
     m_alloca_for_modified_mask_stack := [];
     m_masked_return_count_stack := [];
     m_masked_loop_stack := [];
     m_masked_exit_count := 0;
     memory := [] |}.

Definition with_mask_stack (v : list MaskInfo) (s : LLVM_Util) : LLVM_Util :=
  {| m_supports_native_bit_masks := m_supports_native_bit_masks s;
     m_mask_stack := v;
     m_enable_masking_stack := m_enable_masking_stack s;
     m_alloca_for_modified_mask_stack := m_alloca_for_modified_mask_stack s;
     m_masked_return_count_stack := m_masked_return_count_stack s;
     m_masked_loop_stack := m_masked_loop_stack s;
     m_masked_exit_count := m_masked_exit_count s;
     memory := memory s |}.

Definition with_enable_masking_stack (v : list bool) (s : LLVM_Util) : LLVM_Util :=
  {| m_supports_native_bit_masks := m_supports_native_bit_masks s;
     m_mask_stack := m_mask_stack s;
     m_enable_masking_stack := v;
     m_alloca_for_modified_mask_stack := m_alloca_for_modified_mask_stack s;
     m_masked_return_count_stack := m_masked_return_count_stack s;
     m_masked_loop_stack := m_masked_loop_stack s;
     m_masked_exit_count := m_masked_exit_count s;
     memory := memory s |}.

Definition with_alloca_for_modified_mask_stack (v : list loc) (s : LLVM_Util)
  : LLVM_Util :=
  {| m_supports_native_bit_masks := m_supports_native_bit_masks s;
     m_mask_stack := m_mask_stack s;
     m_enable_masking_stack := m_enable_masking_stack s;
     m_alloca_for_modified_mask_stack := v;
     m_masked_return_count_stack := m_masked_return_count_stack s;
     m_masked_loop_stack := m_masked_loop_stack s;
     m_masked_exit_count := m_masked_exit_count s;
     memory := memory s |}.

Definition with_masked_return_count_stack (v : list Z) (s : LLVM_Util)
  : LLVM_Util :=
  {| m_supports_native_bit_masks := m_supports_native_bit_masks s;
     m_mask_stack := m_mask_stack s;
     m_enable_masking_stack := m_enable_masking_stack s;
     m_alloca_for_modified_mask_stack := m_alloca_for_modified_mask_stack s;
     m_masked_return_count_stack := v;
     m_masked_loop_stack := m_masked_loop_stack s;
     m_masked_exit_count := m_masked_exit_count s;
     memory := memory s |}.

Definition with_masked_loop_stack (v : list LoopInfo) (s : LLVM_Util)
  : LLVM_Util :=
  {| m_supports_native_bit_masks := m_supports_native_bit_masks s;
     m_mask_stack := m_mask_stack s;
     m_enable_masking_stack := m_enable_masking_stack s;
     m_alloca_for_modified_mask_stack := m_alloca_for_modified_mask_stack s;
     m_masked_return_count_stack := m_masked_return_count_stack s;
     m_masked_loop_stack := v;
     m_masked_exit_count := m_masked_exit_count s;
     memory := memory s |}.

Definition with_masked_exit_count (c : Z) (s : LLVM_Util) : LLVM_Util :=
  {| m_supports_native_bit_masks := m_supports_native_bit_masks s;
     m_mask_stack := m_mask_stack s;
     m_enable_masking_stack := m_enable_masking_stack s;
     m_alloca_for_modified_mask_stack := m_alloca_for_modified_mask_stack s;
     m_masked_return_count_stack := m_masked_return_count_stack s;
     m_masked_loop_stack := m_masked_loop_stack s;
     m_masked_exit_count := c;
     memory := memory s |}.

Definition with_memory (mem : list (option value)) (s : LLVM_Util) : LLVM_Util :=
  {| m_supports_native_bit_masks := m_supports_native_bit_masks s;
     m_mask_stack := m_mask_stack s;
     m_enable_masking_stack := m_enable_masking_stack s;
     m_alloca_for_modified_mask_stack := m_alloca_for_modified_mask_stack s;
     m_masked_return_count_stack := m_masked_return_count_stack s;
     m_masked_loop_stack := m_masked_loop_stack s;
     m_masked_exit_count := m_masked_exit_count s;
     memory := mem |}.

(** ** The monad of member functions *)

Definition M (A : Type) : Type := LLVM_Util -> result (A * LLVM_Util).

#[global] Instance M_ret : MRet M := fun A a s => Ok (a, s).

#[global] Instance M_bind : MBind M := fun A B k m s =>
  match m s with
  | Ok (a, s') => k a s'
  | AssertionFailed => AssertionFailed
  | Undefined => Undefined
  end.

Definition gets {A} (f : LLVM_Util -> A) : M A := fun s => Ok (f s, s).

Definition modify (f : LLVM_Util -> LLVM_Util) : M unit := fun s => Ok (tt, f s).

(** [ASSERT(b)]: abort unless [b]. *)
Definition ASSERT (b : bool) : M unit :=
  fun s => if b then Ok (tt, s) else AssertionFailed.

(** The outcome of an emitted instruction. *)
Definition emit {A} (r : result A) : M A :=
  fun s =>
    match r with
    | Ok a => Ok (a, s)
    | AssertionFailed => AssertionFailed
    | Undefined => Undefined
    end.

(** A vector access that C++ leaves undefined on an empty vector. *)
Definition defined {A} (o : option A) : M A :=
  fun s => match o with Some a => Ok (a, s) | None => Undefined end.

(** ** Loads, stores and stack slots *)

(** [builder().CreateAlloca(...)]: a fresh, uninitialised slot. *)
Definition CreateAlloca : M loc :=
  mem ← gets memory;
  modify (with_memory (mem ++ [None]));;
  mret (length mem).

(** [builder().CreateLoad(ptr)]; a load from a slot that was never stored
    to reads [undef] and has no result here. *)
Definition CreateLoad (ptr : loc) : M value :=
  mem ← gets memory;
  defined (mjoin (mem !! ptr)).

(** [builder().CreateStore(val, ptr)] *)
Definition CreateStore (val : value) (ptr : loc) : M unit :=
  mem ← gets memory;
  if bool_decide (ptr < length mem)%nat
  then modify (with_memory (<[ptr := Some val]> mem))
  else emit Undefined.

Definition op_alloca : M loc := CreateAlloca.

Definition op_load (ptr : loc) : M value := CreateLoad ptr.

Definition push_masking_enabled (enabled : bool) : M unit :=
  v ← gets m_enable_masking_stack;
  modify (with_enable_masking_stack (push_back enabled v)).

Definition pop_masking_enabled : M unit :=
  v ← gets m_enable_masking_stack;
  ASSERT (negb (empty v));;
  v' ← defined (pop_back v);
  modify (with_enable_masking_stack v').

Definition op_store (val : value) (ptr : loc) : M unit :=
  mask_stack ← gets m_mask_stack;
  enable ← gets m_enable_masking_stack;
  if empty mask_stack
     || negb (isVectorTy val)
     || match back enable with
        | None => true          (* m_enable_masking_stack.empty() *)
        | Some b => negb b      (* m_enable_masking_stack.back() == false *)
        end
  then CreateStore val ptr
  else
    ASSERT (default false (back enable));;
    ASSERT (isVectorTy val);;
    ASSERT (negb (empty mask_stack));;
    mi ← defined (back mask_stack);
    previous_value ← CreateLoad ptr;
    if negb (negate mi) then
      blended_value ← emit (CreateSelect (mask mi) val previous_value);
      CreateStore blended_value ptr
    else
      blended_value ← emit (CreateSelect (mask mi) previous_value val);
      CreateStore blended_value ptr.

(** ** The mask stack *)

Definition push_mask (mask : value) (negate absolute : bool) : M unit :=
  ASSERT (is_wide_bool mask);;
  stack ← gets m_mask_stack;
  match back stack with
  | None =>
      modify (with_mask_stack (push_back (Build_MaskInfo mask negate 0) stack))
  | Some (Build_MaskInfo prev_mask prev_negate prev_count) =>
      let applied_return_mask_count := if absolute then 0 else prev_count in
      if negb prev_negate then
        if negb negate then
          blended_mask ←
            (if absolute then mret mask
             else emit (CreateSelect prev_mask mask prev_mask));
          modify (with_mask_stack
            (push_back (Build_MaskInfo blended_mask false applied_return_mask_count)
                       stack))
        else
          ASSERT (negb absolute);;
          blended_mask ←
            emit (CreateSelect mask (wide_constant_bool false) prev_mask);
          modify (with_mask_stack
            (push_back (Build_MaskInfo blended_mask false applied_return_mask_count)
                       stack))
      else
        if negb negate then
          blended_mask ←
            (if absolute then mret mask
             else emit (CreateSelect prev_mask (wide_constant_bool false) mask));
          modify (with_mask_stack
            (push_back (Build_MaskInfo blended_mask false applied_return_mask_count)
                       stack))
        else
          ASSERT (negb absolute);;
          blended_mask ← emit (CreateSelect prev_mask prev_mask mask);
          modify (with_mask_stack
            (push_back (Build_MaskInfo blended_mask true applied_return_mask_count)
                       stack))
  end.

Definition pop_mask : M unit :=
  stack ← gets m_mask_stack;
  ASSERT (negb (empty stack));;
  stack' ← defined (pop_back stack);
  modify (with_mask_stack stack').

Definition current_mask : M value :=
  stack ← gets m_mask_stack;
  ASSERT (negb (empty stack));;
  mi ← defined (back stack);
  if negate mi then
    emit (CreateSelect (mask mi) (wide_constant_bool false) (wide_constant_bool true))
  else
    mret (mask mi).

(** ** Function scopes *)

Definition push_function_mask (startMaskValue : value) : M unit :=
  loc_of_modified_mask ← op_alloca;
  allocas ← gets m_alloca_for_modified_mask_stack;
  modify (with_alloca_for_modified_mask_stack
            (push_back loc_of_modified_mask allocas));;
  push_masking_enabled false;;
  op_store startMaskValue loc_of_modified_mask;;
  pop_masking_enabled;;
  counts ← gets m_masked_return_count_stack;
  modify (with_masked_return_count_stack (push_back 0 counts));;
  push_mask startMaskValue (*negate=*) false (*absolute=*) true.

Definition masked_return_count : M Z :=
  counts ← gets m_masked_return_count_stack;
  ASSERT (negb (empty counts));;
  defined (back counts).


Definition pop_function_mask : M unit :=
  pop_mask;;
  allocas ← gets m_alloca_for_modified_mask_stack;
  ASSERT (negb (empty allocas));;
  allocas' ← defined (pop_back allocas);
  modify (with_alloca_for_modified_mask_stack allocas');;
  counts ← gets m_masked_return_count_stack;
  ASSERT (negb (empty counts));;
  counts' ← defined (pop_back counts);
  modify (with_masked_return_count_stack counts').

(** ** Loop scopes *)

Definition push_masked_loop
    (location_of_condition_mask location_of_continue_mask : option loc) : M unit :=
  loops ← gets m_masked_loop_stack;
  modify (with_masked_loop_stack
    (push_back
       (Build_LoopInfo location_of_condition_mask location_of_continue_mask 0 0)
       loops)).

Definition is_innermost_loop_masked : M bool :=
  loops ← gets m_masked_loop_stack;
  match back loops with
  | None => mret false
  | Some loop => mret (bool_decide (location_of_condition_mask loop ≠ None))
  end.

Definition masked_break_count : M Z :=
  loops ← gets m_masked_loop_stack;
  match back loops with
  | None => mret 0
  | Some loop => mret (break_count loop)
  end.

Definition masked_continue_count : M Z :=
  loops ← gets m_masked_loop_stack;
  match back loops with
  | None => mret 0
  | Some loop => mret (continue_count loop)
  end.

Definition pop_masked_loop : M unit :=
  loops ← gets m_masked_loop_stack;
  loops' ← defined (pop_back loops);
  modify (with_masked_loop_stack loops').

Definition push_shader_instance (startMaskValue : value) : M unit :=
  push_function_mask startMaskValue.

Definition pop_shader_instance : M unit :=
  modify (with_masked_exit_count 0);;
  pop_function_mask.

(** ** Deferred application of a return to the mask stack *)

Definition apply_return_to_mask_stack : M unit :=
  stack ← gets m_mask_stack;
  ASSERT (negb (empty stack));;
  mi ← defined (back stack);
  rest ← defined (pop_back stack);
  counts ← gets m_masked_return_count_stack;
  masked_return_count ← defined (back counts);
  if bool_decide (masked_return_count > applied_return_mask_count mi) then
    let existing_mask := mask mi in
    allocas ← gets m_alloca_for_modified_mask_stack;
    ASSERT (negb (empty allocas));;
    loc_of_return_mask ← defined (back allocas);
    rs_mask ← op_load loc_of_return_mask;
    new_mask ←
      (if negate mi
       then emit (CreateSelect rs_mask existing_mask (wide_constant_bool true))
       else emit (CreateSelect rs_mask existing_mask rs_mask));
    modify (with_mask_stack
      (push_back (Build_MaskInfo new_mask (negate mi) masked_return_count) rest))
  else
    mret tt.

(** ** Masked control transfers *)

Definition op_masked_return : M unit :=
  stack ← gets m_mask_stack;
  ASSERT (negb (empty stack));;
  mi ← defined (back stack);
  allocas ← gets m_alloca_for_modified_mask_stack;
  ASSERT (negb (empty allocas));;
  loc_of_function_mask ← defined (back allocas);
  function_mask ← op_load loc_of_function_mask;
  let return_from_mask := mask mi in
  modifiedMask ←
    (if negate mi
     then emit (CreateSelect return_from_mask function_mask return_from_mask)
     else emit (CreateSelect return_from_mask (wide_constant_bool false)
                             function_mask));
  push_masking_enabled false;;
  op_store modifiedMask loc_of_function_mask;;
  pop_masking_enabled;;
  counts ← gets m_masked_return_count_stack;
  ASSERT (negb (empty counts));;
  count ← defined (back counts);
  counts' ← defined (pop_back counts);
  count' ← emit (incr count);
  modify (with_masked_return_count_stack (push_back count' counts')).

Definition op_masked_exit : M unit :=
  stack ← gets m_mask_stack;
  ASSERT (negb (empty stack));;
  mi ← defined (back stack);
  let exit_from_mask := mask mi in
  allocas ← gets m_alloca_for_modified_mask_stack;
  ASSERT (negb (empty allocas));;
  loc_of_shader_mask ← defined (front allocas);
  shader_mask ← op_load loc_of_shader_mask;
  modifiedMask ←
    (if negate mi
     then emit (CreateSelect exit_from_mask shader_mask exit_from_mask)
     else emit (CreateSelect exit_from_mask (wide_constant_bool false)
                             shader_mask));
  push_masking_enabled false;;
  op_store modifiedMask loc_of_shader_mask;;
  pop_masking_enabled;;
  (if bool_decide (1 < size allocas)%nat then  (* size() > 1 *)
     loc_of_function_mask ← defined (back allocas);
     function_mask ← op_load loc_of_function_mask;
     modifiedMask ←
       (if negate mi
        then emit (CreateSelect exit_from_mask function_mask exit_from_mask)
        else emit (CreateSelect exit_from_mask (wide_constant_bool false)
                                function_mask));
     push_masking_enabled false;;
     op_store modifiedMask loc_of_function_mask;;
     pop_masking_enabled
   else (mret tt : M unit));;
  exit_count ← gets m_masked_exit_count;
  exit_count' ← emit (incr exit_count);
  modify (with_masked_exit_count exit_count');;
  counts ← gets m_masked_return_count_stack;
  ASSERT (negb (empty counts));;
  count ← defined (back counts);
  counts' ← defined (pop_back counts);
  count' ← emit (incr count);
  modify (with_masked_return_count_stack (push_back count' counts')).

(** ** Lane masks as integers *)

Definition widen_value (val : value) : M value := emit (CreateVectorSplat val).

Definition op_and (a b : value) : M value := emit (CreateAnd a b).

Definition op_ne (a b : value) : M value :=
  ASSERT (same_type a b);;
  emit (CreateICmpNE a b).

(** The constant vector whose lane [lane_index] is the [int]
    [1 << lane_index]. *)
Definition lane_filter : value :=
  VWideInt (fun_to_vec (fun lane_index : fin W =>
                          wrap_int (Z.shiftl 1 (Z.of_nat lane_index)))).

Definition mask_as_int (mask : value) : M value :=
  ASSERT (is_wide_bool mask);;
  result ← emit (CreateBitCast_to_i16 mask);
  emit (CreateZExt_to_i32 result).

Definition int_as_mask (val : value) : M value :=
  ASSERT (is_int val);;
  native ← gets m_supports_native_bit_masks;
  result ←
    (if (native : bool) then
       intMask ← emit (CreateTrunc_to_i16 val);
       emit (CreateBitCast_to_wide_bool intMask)
     else
       wide_int_mask ← widen_value val;
       filtered_mask ← op_and wide_int_mask lane_filter;
       op_ne filtered_mask (wide_constant 0));
  ASSERT (is_wide_bool result);;
  mret result.

(** ** Folding exits, breaks and continues into the mask stack *)

Definition shader_mask : M value :=
  allocas ← gets m_alloca_for_modified_mask_stack;
  loc_of_shader_mask ← defined (front allocas);
  op_load loc_of_shader_mask.

Definition apply_exit_to_mask_stack : M unit :=
  stack ← gets m_mask_stack;
  ASSERT (negb (empty stack));;
  allocas ← gets m_alloca_for_modified_mask_stack;
  ASSERT (negb (empty allocas));;
  loc_of_shader_mask ← defined (front allocas);
  shader_mask ← op_load loc_of_shader_mask;
  loc_of_function_mask ← defined (back allocas);
  function_mask ← op_load loc_of_function_mask;
  modified_function_mask ←
    emit (CreateSelect shader_mask function_mask shader_mask);
  push_masking_enabled false;;
  op_store modified_function_mask loc_of_function_mask;;
  pop_masking_enabled;;
  counts ← gets m_masked_return_count_stack;
  count ← defined (back counts);
  counts' ← defined (pop_back counts);
  masked_return_count ← emit (incr count);
  modify (with_masked_return_count_stack (push_back masked_return_count counts'));;
  mi ← defined (back stack);
  rest ← defined (pop_back stack);
  ASSERT (bool_decide (masked_return_count > applied_return_mask_count mi));;
  let existing_mask := mask mi in
  ASSERT (negb (empty allocas));;
  new_mask ←
    (if negate mi
     then emit (CreateSelect modified_function_mask existing_mask
                             (wide_constant_bool true))
     else emit (CreateSelect modified_function_mask existing_mask
                             modified_function_mask));
  modify (with_mask_stack
    (push_back (Build_MaskInfo new_mask (negate mi) masked_return_count) rest)).

Definition apply_break_to_mask_stack : M unit :=
  stack ← gets m_mask_stack;
  ASSERT (negb (empty stack));;
  mi ← defined (back stack);
  rest ← defined (pop_back stack);
  let existing_mask := mask mi in
  loops ← gets m_masked_loop_stack;
  ASSERT (negb (empty loops));;
  loop ← defined (back loops);
  (* a load through a null location has no defined behaviour *)
  loc_of_cond_mask ← defined (location_of_condition_mask loop);
  cond_mask ← op_load loc_of_cond_mask;
  new_mask ←
    (if negate mi
     then emit (CreateSelect cond_mask existing_mask (wide_constant_bool true))
     else emit (CreateSelect cond_mask existing_mask cond_mask));
  modify (with_mask_stack
    (push_back
       (Build_MaskInfo new_mask (negate mi) (applied_return_mask_count mi))
       rest)).

Definition apply_continue_to_mask_stack : M unit :=
  stack ← gets m_mask_stack;
  ASSERT (negb (empty stack));;
  mi ← defined (back stack);
  rest ← defined (pop_back stack);
  let existing_mask := mask mi in
  loops ← gets m_masked_loop_stack;
  ASSERT (negb (empty loops));;
  loop ← defined (back loops);
  loc_of_continue_mask ← defined (location_of_continue_mask loop);
  continue_mask ← op_load loc_of_continue_mask;
  new_mask ←
    (if negate mi
     then emit (CreateSelect continue_mask (wide_constant_bool true) existing_mask)
     else emit (CreateSelect continue_mask (wide_constant_bool false)
                             existing_mask));
  modify (with_mask_stack
    (push_back
       (Build_MaskInfo new_mask (negate mi) (applied_return_mask_count mi))
       rest)).

Definition apply_return_to (existing_mask : value) : M value :=
  counts ← gets m_masked_return_count_stack;
  count ← defined (back counts);
  ASSERT (bool_decide (count > 0));;
  allocas ← gets m_alloca_for_modified_mask_stack;
  ASSERT (negb (empty allocas));;
  loc_of_return_mask ← defined (back allocas);
  rs_mask ← op_load loc_of_return_mask;
  emit (CreateSelect rs_mask existing_mask rs_mask).

(** ** Masked break and continue *)

Definition op_masked_break : M unit :=
  stack ← gets m_mask_stack;
  ASSERT (negb (empty stack));;
  mi ← defined (back stack);
  loops ← gets m_masked_loop_stack;
  ASSERT (negb (empty loops));;
  loop ← defined (back loops);
  loops' ← defined (pop_back loops);
  loc_of_cond_mask ← defined (location_of_condition_mask loop);
  cond_mask ← op_load loc_of_cond_mask;
  let break_from_mask := mask mi in
  new_cond_mask ←
    (if negate mi
     then emit (CreateSelect break_from_mask cond_mask break_from_mask)
     else emit (CreateSelect break_from_mask (wide_constant_bool false)
                             cond_mask));
  push_masking_enabled false;;
  op_store new_cond_mask loc_of_cond_mask;;
  pop_masking_enabled;;
  break_count' ← emit (incr (break_count loop));
  modify (with_masked_loop_stack
    (push_back
       (Build_LoopInfo (location_of_condition_mask loop)
                       (location_of_continue_mask loop)
                       break_count' (continue_count loop))
       loops')).

Definition op_masked_continue : M unit :=
  stack ← gets m_mask_stack;
  ASSERT (negb (empty stack));;
  mi ← defined (back stack);
  loops ← gets m_masked_loop_stack;
  ASSERT (negb (empty loops));;
  loop ← defined (back loops);
  loops' ← defined (pop_back loops);
  loc_of_continue_mask ← defined (location_of_continue_mask loop);
  continue_mask ← op_load loc_of_continue_mask;
  let continue_from_mask := mask mi in
  new_abs_continue_mask ←
    (if negate mi
     then emit (CreateSelect continue_from_mask continue_mask
                             (wide_constant_bool true))
     else emit (CreateSelect continue_from_mask continue_from_mask
                             continue_mask));
  push_masking_enabled false;;
  op_store new_abs_continue_mask loc_of_continue_mask;;
  pop_masking_enabled;;
  continue_count' ← emit (incr (continue_count loop));
  modify (with_masked_loop_stack
    (push_back
       (Build_LoopInfo (location_of_condition_mask loop)
                       (location_of_continue_mask loop)
                       (break_count loop) continue_count')
       loops')).

(** ** Tests on lane masks *)

(** [sext <W x i1> mask to <W x iN>]: a lane is all ones or zero; the
    lanes are kept as unsigned [N]-bit patterns. *)
Definition CreateSExt_lanes (bits : Z) (mask : value) : result (vec Z W) :=
  match mask with
  | VWideBool m => Ok (vmap (fun b : bool => if b then 2 ^ bits - 1 else 0) m)
  | _ => Undefined
  end.

(** The integer made of [bits]-bit elements, element 0 in the low bits. *)
Fixpoint concat_lanes (bits : Z) (l : list Z) : Z :=
  match l with
  | [] => 0
  | x :: l' => x + 2 ^ bits * concat_lanes bits l'
  end.

(** [bitcast <W x iN> v to iT], which needs [W * N = T]. *)
Definition CreateBitCast_lanes_to_int (bits total : Z) (v : vec Z W) : result Z :=
  if bool_decide (Z.of_nat W * bits = total)
  then Ok (concat_lanes bits (vec_to_list v))
  else Undefined.

Definition test_if_mask_is_non_zero (mask : value) : M value :=
  ASSERT (is_wide_bool mask);;
  types ←
    (if bool_decide (W = 4%nat) then mret (32, 128)
     else if bool_decide (W = 8%nat) then mret (32, 256)
     else if bool_decide (W = 16%nat) then mret (8, 128)
     else ASSERT false;; emit Undefined) : M (Z * Z);
  let extended_int_bits := types.1 in
  let int_reinterpret_cast_bits := types.2 in
  wide_int_mask ← emit (CreateSExt_lanes extended_int_bits mask);
  mask_as_int ←
    emit (CreateBitCast_lanes_to_int extended_int_bits
                                     int_reinterpret_cast_bits wide_int_mask);
  (* op_ne (mask_as_int, zeroConstant), both of the cast type *)
  mret (VBool (negb (mask_as_int =? 0))).

(** The two results are the reference parameters [any_on] and [any_off]. *)
Definition test_if_mask_has_any_on_or_off (mask : value) : M (value * value) :=
  ASSERT (is_wide_bool mask);;
  mask_as_int ←
    (if bool_decide (W = 4%nat) then
       ASSERT false;; emit Undefined   (* "incomplete the allOnConstant is wrong" *)
     else if bool_decide (W = 8%nat) then
       ASSERT false;; emit Undefined
     else if bool_decide (W = 16%nat) then
       emit (CreateBitCast_to_i16 mask)
     else ASSERT false;; emit Undefined) : M value;
  let allOffConstant := VInt16 0 in
  let allOnConstant := VInt16 65535 in
  any_on ← op_ne mask_as_int allOffConstant;
  any_off ← op_ne mask_as_int allOnConstant;
  mret (any_on, any_off).

(** [extractelement mask, lane_index] with an [int] index; an index
    outside the vector gives no defined value. *)
Definition CreateExtractElement_at (v : value) (lane_index : Z) : result value :=
  match v with
  | VWideBool m =>
      if bool_decide (0 <= lane_index)
      then match vec_to_list m !! Z.to_nat lane_index with
           | Some b => Ok (VBool b)
           | None => Undefined
           end
      else Undefined
  | VWideInt x =>
      if bool_decide (0 <= lane_index)
      then match vec_to_list x !! Z.to_nat lane_index with
           | Some z => Ok (VInt z)
           | None => Undefined
           end
      else Undefined
  | _ => Undefined
  end.

Definition test_mask_lane (mask : value) (lane_index : Z) : M value :=
  ASSERT (is_wide_bool mask);;
  emit (CreateExtractElement_at mask lane_index).

(** The number of trailing zero bits among the low [bits] bits of [x]. *)
Fixpoint count_trailing_zeros (bits : nat) (x : Z) : Z :=
  match bits with
  | O => 0
  | S bits' => if Z.odd x then 0 else 1 + count_trailing_zeros bits' (x / 2)
  end.

(** [llvm.cttz.i16 (x, true)]: the result is undefined for [x = 0]. *)
Definition CreateCall_cttz_i16 (x : value) : result value :=
  match x with
  | VInt16 z =>
      if z =? 0 then Undefined else Ok (VInt16 (count_trailing_zeros 16 z))
  | _ => Undefined
  end.

Definition op_1st_active_lane_of (mask : value) : M value :=
  ASSERT (is_wide_bool mask);;
  ASSERT (bool_decide (W = 16%nat));;
  int16_mask ← emit (CreateBitCast_to_i16 mask);
  emit (CreateCall_cttz_i16 int16_mask).

(** [icmp eq a, b] *)
Definition CreateICmpEQ (a b : value) : result value :=
  match a, b with
  | VBool x, VBool y => Ok (VBool (negb (xorb x y)))
  | VInt16 x, VInt16 y => Ok (VBool (x =? y))
  | VInt x, VInt y => Ok (VBool (x =? y))
  | VWideBool x, VWideBool y =>
      Ok (VWideBool (vzip_with (fun p q => negb (xorb p q)) x y))
  | VWideInt x, VWideInt y => Ok (VWideBool (vzip_with Z.eqb x y))
  | _, _ => Undefined
  end.

Definition op_eq (a b : value) : M value :=
  ASSERT (same_type a b);;
  emit (CreateICmpEQ a b).

Definition op_lanes_that_match_masked (scalar_value wide_value mask : value)
  : M value :=
  ASSERT (negb (isVectorTy scalar_value));;
  ASSERT (isVectorTy wide_value);;
  uniformWideValue ← widen_value scalar_value;
  lanes_matching ← op_eq uniformWideValue wide_value;
  masked_lanes_matching ← op_and lanes_matching mask;
  mret masked_lanes_matching.

(** [xor a, -1] *)
Definition CreateNot (a : value) : result value :=
  match a with
  | VBool b => Ok (VBool (negb b))
  | VInt16 z => Ok (VInt16 (2 ^ 16 - 1 - z))
  | VInt z => Ok (VInt (Z.lnot z))
  | VWideBool m => Ok (VWideBool (vmap negb m))
  | VWideInt x => Ok (VWideInt (vmap Z.lnot x))
  end.

Definition negate_mask (mask : value) : M value :=
  ASSERT (is_wide_bool mask);;
  emit (CreateNot mask).

(** ** Conversions between booleans and integers *)

(** [zext a to type_int()] or, for a vector, [to type_wide_int()] *)
Definition CreateZExt_to_int (a : value) : result value :=
  match a with
  | VBool b => Ok (VInt (Z.b2z b))
  | VInt16 z => Ok (VInt (z mod 2 ^ 16))
  | VWideBool m => Ok (VWideInt (vmap Z.b2z m))
  | _ => Undefined
  end.

(** The types tested are [type_bool()], [type_wide_bool()], [type_int()]
    and [type_wide_int()]; any other type ends on
    [ASSERT (0 && "Op has bad value type combination")]. *)
Definition op_bool_to_int (a : value) : M value :=
  match a with
  | VBool _ | VWideBool _ => emit (CreateZExt_to_int a)
  | VInt _ | VWideInt _ => mret a
  | _ => ASSERT false;; emit Undefined
  end.

Definition op_int_to_bool (a : value) : M value :=
  match a with
  | VInt _ => op_ne a (VInt 0)
  | VWideInt _ => op_ne a (wide_constant 0)
  | VBool _ | VWideBool _ => mret a
  | _ => ASSERT false;; emit Undefined
  end.

(** ** Definitions for the statements *)

(** [~m]: the lanes that are off in [m]. *)
Definition complement (m : wide_bool W) : wide_bool W := vmap negb m.

(** [a AND b], lane by lane. *)
Definition lanes_and (a b : wide_bool W) : wide_bool W := vzip_with andb a b.

(** The table of the specification, section 4.1, row by row on
    (prevNegate, negate); the second component is the new entry's
    [negated] flag. *)
Definition blend_table (prevNegate negate absolute : bool)
    (prevPredicate predicate : wide_bool W) : wide_bool W * bool :=
  let allFalse := vreplicate W false in
  match prevNegate, negate with
  | false, false =>
      (if absolute then predicate
       else vselect prevPredicate predicate prevPredicate, false)
  | false, true => (vselect predicate allFalse prevPredicate, false)
  | true, false =>
      (if absolute then predicate
       else vselect prevPredicate allFalse predicate, false)
  | true, true => (vselect prevPredicate prevPredicate predicate, true)
  end.

(** The rule of the specification, section 4.1: 0 unless [absolute], then
    the parent's count. *)
Definition spec_applied_return_mask_count (absolute : bool) (parentCount : Z) : Z :=
  if absolute then parentCount else 0.

(** [push_mask(m, true, false); y = current_mask(); pop_mask()] *)
Definition negated_push_current_pop (m : wide_bool W) : M value :=
  push_mask (VWideBool m) (*negate=*) true (*absolute=*) false;;
  y ← current_mask;
  pop_mask;;
  mret y.

(** Clearing the lanes that are active in the top entry [(p, neg)] from a
    slot holding [x], as the masked control transfers compute it. *)
Definition cleared (p : wide_bool W) (neg : bool) (x : wide_bool W) : wide_bool W :=
  if neg then vselect p x p else vselect p (vreplicate W false) x.

(** The mask [apply_return_to_mask_stack] leaves in an entry [(p, neg)]
    after narrowing it by the slot value [rs_mask]. *)
Definition narrowed (p : wide_bool W) (neg : bool) (rs_mask : wide_bool W)
  : wide_bool W :=
  if neg then vselect rs_mask p (vreplicate W true)
  else vselect rs_mask p rs_mask.

(** No lane on. *)
Definition all_off : wide_bool W := vreplicate W false.

(** [a AND NOT b], lane by lane. *)
Definition lanes_without (a b : wide_bool W) : wide_bool W :=
  lanes_and a (complement b).

(** [a OR b], lane by lane. *)
Definition lanes_or (a b : wide_bool W) : wide_bool W := vzip_with orb a b.

(** ** Well-formed objects *)

(** The location holds a lane mask. *)
Definition slot_holds_mask (mem : list (option value)) (l : loc) : Prop :=
  exists m : wide_bool W, mem !! l = Some (Some (VWideBool m)).

(** Every entry of the mask stack is a [<W x i1>], every function scope
    has a slot that holds one, and the slots and return counts of the
    function scopes go in pairs. *)
Definition well_formed (st : LLVM_Util) : Prop :=
  Forall (fun mi : MaskInfo => is_wide_bool (mask mi) = true) (m_mask_stack st) /\
  Forall (slot_holds_mask (memory st)) (m_alloca_for_modified_mask_stack st) /\
  length (m_alloca_for_modified_mask_stack st)
    = length (m_masked_return_count_stack st).

(** The operations on the mask stack and the function scopes. *)
Inductive mask_op : Type :=
| PushMask (m : wide_bool W) (negate absolute : bool)
| PopMask
| PushFunctionMask (m : wide_bool W)
| PopFunctionMask
| MaskedReturn
| MaskedExit
| ApplyReturn
| ApplyExit.

Definition run_op (op : mask_op) : M unit :=
  match op with
  | PushMask m negate absolute => push_mask (VWideBool m) negate absolute
  | PopMask => pop_mask
  | PushFunctionMask m => push_function_mask (VWideBool m)
  | PopFunctionMask => pop_function_mask
  | MaskedReturn => op_masked_return
  | MaskedExit => op_masked_exit
  | ApplyReturn => apply_return_to_mask_stack
  | ApplyExit => apply_exit_to_mask_stack
  end.

(** A sequence of operations, stopping at the first that does not
    return. *)
Fixpoint run_ops (ops : list mask_op) : M unit :=
  match ops with
  | [] => mret tt
  | op :: ops' => run_op op;; run_ops ops'
  end.

End Masking.

Arguments value : clear implicits.
Arguments MaskInfo : clear implicits.
Arguments LoopInfo : clear implicits.
Arguments LLVM_Util : clear implicits.
Arguments M : clear implicits.
Arguments new_LLVM_Util : clear implicits.

(** * Four lanes: the scenarios of the specification *)

Definition lanes_1111 : wide_bool 4 := [# true; true; true; true].
Definition lanes_1100 : wide_bool 4 := [# true; true; false; false].
Definition lanes_0011 : wide_bool 4 := [# false; false; true; true].
Definition lanes_1010 : wide_bool 4 := [# true; false; true; false].
Definition lanes_1000 : wide_bool 4 := [# true; false; false; false].
Definition lanes_0100 : wide_bool 4 := [# false; true; false; false].
Definition lanes_0010 : wide_bool 4 := [# false; false; true; false].
Definition lanes_1110 : wide_bool 4 := [# true; true; true; false].

(** An object with a single mask-stack entry. *)
Definition one_entry (mi : MaskInfo 4) : LLVM_Util 4 :=
  with_mask_stack [mi] (new_LLVM_Util 4 false).

(** The object inside a function scope opened on all four lanes:
    [push_function_mask(1111)] on a new object. *)
Definition in_function : LLVM_Util 4 :=
  {| m_supports_native_bit_masks := false;
     m_mask_stack := [Build_MaskInfo (VWideBool lanes_1111) false 0];
     m_enable_masking_stack := [];
     m_alloca_for_modified_mask_stack := [0%nat];
     m_masked_return_count_stack := [0];
     m_masked_loop_stack := [];
     m_masked_exit_count := 0;
     memory := [Some (VWideBool lanes_1111)] |}.

(** The same inside a conditional that is active on lanes [1100]. *)
Definition in_conditional : LLVM_Util 4 :=
  with_mask_stack
    [Build_MaskInfo (VWideBool lanes_1100) false 0;
     Build_MaskInfo (VWideBool lanes_1111) false 0]
    in_function.

(** After the conditional, with its return folded into the function's
    entry. *)
Definition after_conditional : LLVM_Util 4 :=
  {| m_supports_native_bit_masks := false;
     m_mask_stack := [Build_MaskInfo (VWideBool lanes_0011) false 1];
     m_enable_masking_stack := [];
     m_alloca_for_modified_mask_stack := [0%nat];
     m_masked_return_count_stack := [1];
     m_masked_loop_stack := [];
     m_masked_exit_count := 0;
     memory := [Some (VWideBool lanes_0011)] |}.

(** A masked return inside the conditional, the fold of the return into
    the conditional's entry, the pop of that entry and the fold into the
    function's entry; then the function's slot and [masked_return_count()]
    are read. *)
Definition masked_return_in_conditional : M 4 (value 4 * Z) :=
  push_function_mask (VWideBool lanes_1111);;
  push_mask (VWideBool lanes_1100) (*negate=*) false (*absolute=*) false;;
  op_masked_return;;
  apply_return_to_mask_stack;;
  pop_mask;;
  apply_return_to_mask_stack;;
  allocas ← gets m_alloca_for_modified_mask_stack;
  loc_of_function_mask ← defined (back allocas);
  function_mask ← op_load loc_of_function_mask;
  count ← masked_return_count;
  mret (function_mask, count).

(** An object with masking enabled, the mask [1010] current and the wide
    value [1, 2, 3, 4] in slot 0. *)
Definition storing : LLVM_Util 4 :=
  {| m_supports_native_bit_masks := false;
     m_mask_stack := [Build_MaskInfo (VWideBool lanes_1010) false 0];
     m_enable_masking_stack := [true];
     m_alloca_for_modified_mask_stack := [];
     m_masked_return_count_stack := [];
     m_masked_loop_stack := [];
     m_masked_exit_count := 0;
     memory := [Some (VWideInt [# 1; 2; 3; 4])] |}.

(** A function scope nested in the shader's scope, inside a conditional
    that is active on lanes [1100]: slot 0 is the shader's, slot 1 the
    function's. *)
Definition in_nested_function : LLVM_Util 4 :=
  {| m_supports_native_bit_masks := false;
     m_mask_stack :=
       [Build_MaskInfo (VWideBool lanes_1100) false 0;
        Build_MaskInfo (VWideBool lanes_1111) false 0;
        Build_MaskInfo (VWideBool lanes_1111) false 0];
     m_enable_masking_stack := [];
     m_alloca_for_modified_mask_stack := [1%nat; 0%nat];
     m_masked_return_count_stack := [0; 0];
     m_masked_loop_stack := [];
     m_masked_exit_count := 0;
     memory := [Some (VWideBool lanes_1111); Some (VWideBool lanes_1111)] |}.

(** [in_conditional] after its masked return. *)
Definition returned_in_conditional : LLVM_Util 4 :=
  with_masked_return_count_stack [1]
    (with_memory [Some (VWideBool lanes_0011)] in_conditional).

(** ... and after the fold of that return into the conditional's entry,
    which leaves no lane of the conditional on. *)
Definition folded_in_conditional : LLVM_Util 4 :=
  with_mask_stack
    [Build_MaskInfo (VWideBool (vreplicate 4 false)) false 1;
     Build_MaskInfo (VWideBool lanes_1111) false 0]
    returned_in_conditional.

(** [in_conditional] inside a masked loop: the loop's condition mask,
    all four lanes on, is in slot 1 and its continue mask, no lane on, in
    slot 2. *)
Definition in_loop : LLVM_Util 4 :=
  with_masked_loop_stack [Build_LoopInfo (Some 1%nat) (Some 2%nat) 0 0]
    (with_memory
       [Some (VWideBool lanes_1111); Some (VWideBool lanes_1111);
        Some (VWideBool (vreplicate 4 false))]
       in_conditional).

(** A function scope that is opened, returned from inside a conditional
    and left with the return folded into the function's entry. *)
Definition return_in_conditional : list (@mask_op 4) :=
  [PushFunctionMask lanes_1111;
   PushMask lanes_1100 (*negate=*) false (*absolute=*) false;
   MaskedReturn;
   ApplyReturn;
   PopMask;
   ApplyReturn].

(** * Sixteen lanes *)

(** Lanes 2, 5 and 15 on. *)
Definition lanes_2_5_15 : wide_bool 16 :=
  [# false; false; true; false; false; true; false; false;
     false; false; false; false; false; false; false; true].

(** * Properties *)

Section Properties.

Context {m_vector_width : nat}.

Local Abbreviation W := m_vector_width.

(** ** Lanes of the emitted instructions *)

Lemma vlookup_vselect {A} (c : wide_bool W) (a b : vec A W) (i : fin W) :
  vselect c a b !!! i = if (c !!! i : bool) then a !!! i else b !!! i.
Proof.
  unfold vselect. rewrite !vlookup_zip_with. simpl. reflexivity.
Qed.

Lemma vlookup_complement (m : wide_bool W) (i : fin W) :
  complement m !!! i = negb (m !!! i).
Proof. unfold complement. apply vlookup_map. Qed.

Lemma vlookup_lanes_and (a b : wide_bool W) (i : fin W) :
  lanes_and a b !!! i = a !!! i && b !!! i.
Proof. unfold lanes_and. apply vlookup_zip_with. Qed.

(** Rewrites a goal about lane vectors into one about a single lane. *)
Ltac simpl_lanes :=
  repeat first [ rewrite vlookup_vselect | rewrite vlookup_complement
               | rewrite vlookup_lanes_and | rewrite vlookup_replicate ].

Ltac by_lanes := apply vec_eq; intros lane; simpl_lanes.

Lemma select_false_true (p : wide_bool W) :
  vselect p (vreplicate W false) (vreplicate W true) = complement p.
Proof. by_lanes. destruct (p !!! lane); reflexivity. Qed.

(** ** Running a member function *)

(** Unfolds the monad, leaving the matches on the object's fields. *)
Ltac run :=
  unfold mbind, M_bind, mret, M_ret, gets, modify, ASSERT, emit, defined,
         back, front, push_back, pop_back, empty in *;
  simpl in *.

(** [current_mask] on a stack whose top entry holds a lane mask. *)
Lemma current_mask_top
    (st : LLVM_Util W) (mi : MaskInfo W) (rest : list (MaskInfo W))
    (p : wide_bool W) :
  m_mask_stack st = mi :: rest ->
  mask mi = VWideBool p ->
  current_mask st = Ok (VWideBool (if negate mi then complement p else p), st).
Proof.
  intros Hst Hp. unfold current_mask. run. rewrite Hst. simpl. rewrite Hp.
  destruct (negate mi); simpl; [rewrite select_false_true|]; reflexivity.
Qed.

Lemma current_mask_top_inv
    (st : LLVM_Util W) (mi : MaskInfo W) (rest : list (MaskInfo W))
    (p act : wide_bool W) :
  m_mask_stack st = mi :: rest ->
  mask mi = VWideBool p ->
  current_mask st = Ok (VWideBool act, st) ->
  act = if negate mi then complement p else p.
Proof.
  intros Hst Hp Hcur. rewrite (current_mask_top st mi rest p Hst Hp) in Hcur.
  congruence.
Qed.

(** ** The blend table of [push_mask] *)

(** [push_mask] on a stack whose top entry holds a lane mask, in full. *)
Lemma push_mask_on_entry
    (st : LLVM_Util W) (prevPredicate predicate : wide_bool W)
    (prevNegate negate absolute : bool) (prevCount : Z)
    (rest : list (MaskInfo W)) :
  m_mask_stack st
    = Build_MaskInfo (VWideBool prevPredicate) prevNegate prevCount :: rest ->
  push_mask (VWideBool predicate) negate absolute st =
    if negate && absolute then AssertionFailed
    else
      Ok (tt, with_mask_stack
                (Build_MaskInfo
                   (VWideBool (blend_table prevNegate negate absolute
                                           prevPredicate predicate).1)
                   (blend_table prevNegate negate absolute
                                prevPredicate predicate).2
                   (if absolute then 0 else prevCount)
                 :: m_mask_stack st) st).
Proof.
  intros Hst. unfold push_mask. run. rewrite Hst. simpl.
  destruct prevNegate, negate, absolute; reflexivity.
Qed.

(** C1.  A push onto a non-empty mask stack leaves the old entries in
    place and adds the entry the blend table gives for (prevNegate, negate);
    the two rows with negate set are reached only with absolute unset, the
    ASSERT in either row stops a push that sets both. *)
Theorem push_mask_blend_table
    (st : LLVM_Util W) (prevPredicate predicate : wide_bool W)
    (prevNegate negate absolute : bool) (prevCount : Z)
    (rest : list (MaskInfo W)) :
  m_mask_stack st
    = Build_MaskInfo (VWideBool prevPredicate) prevNegate prevCount :: rest ->
  push_mask (VWideBool predicate) negate absolute st =
    if negate && absolute then AssertionFailed
    else
      Ok (tt, with_mask_stack
                (Build_MaskInfo
                   (VWideBool (blend_table prevNegate negate absolute
                                           prevPredicate predicate).1)
                   (blend_table prevNegate negate absolute
                                prevPredicate predicate).2
                   (if absolute then 0 else prevCount)
                 :: m_mask_stack st) st).
Proof. apply push_mask_on_entry. Qed.

(** ** The applied-return count of a pushed entry *)

(** [push_function_mask] always goes through: the slot it stores to is
    the one it has just allocated, the store is made with masking
    disabled, and the push is absolute. *)
Lemma push_function_mask_Ok (st : LLVM_Util W) (startMask : wide_bool W) :
  push_function_mask (VWideBool startMask) st =
    Ok (tt,
        with_mask_stack
          (Build_MaskInfo (VWideBool startMask) false 0 :: m_mask_stack st)
          (with_masked_return_count_stack (0 :: m_masked_return_count_stack st)
             (with_memory (memory st ++ [Some (VWideBool startMask)])
                (with_alloca_for_modified_mask_stack
                   (length (memory st) :: m_alloca_for_modified_mask_stack st)
                   st)))).
Proof.
  destruct st as [native stack enable allocas counts loops exits mem].
  unfold push_function_mask, op_alloca, CreateAlloca, push_masking_enabled,
    op_store, CreateStore, pop_masking_enabled, push_mask.
  run. rewrite !orb_true_r. simpl.
  rewrite length_app. simpl.
  rewrite bool_decide_eq_true_2 by lia. simpl.
  assert (Hins : <[length mem := Some (VWideBool startMask)]> (mem ++ [None])
                 = mem ++ [Some (VWideBool startMask)]).
  { replace (length mem) with (length mem + 0)%nat by lia.
    rewrite insert_app_r. reflexivity. }
  rewrite Hins.
  destruct stack as [|[pm pn pc] stack]; simpl; [reflexivity|].
  destruct pn; reflexivity.
Qed.

(** C2, as the code has it.  The entry pushed onto a non-empty mask stack
    starts with count 0 when absolute is set and inherits the parent's
    count otherwise; the entry with which [push_function_mask] opens a
    scope is pushed absolute and so starts at 0, like the return counter of
    the new scope. *)
Theorem push_mask_applied_return_mask_count
    (st : LLVM_Util W) (prevPredicate predicate : wide_bool W)
    (prevNegate negate absolute : bool) (prevCount : Z)
    (rest : list (MaskInfo W)) :
  m_mask_stack st
    = Build_MaskInfo (VWideBool prevPredicate) prevNegate prevCount :: rest ->
  negate && absolute = false ->
  (exists new : MaskInfo W,
     push_mask (VWideBool predicate) negate absolute st
       = Ok (tt, with_mask_stack (new :: m_mask_stack st) st) /\
     applied_return_mask_count new = if absolute then 0 else prevCount) /\
  (exists (new : MaskInfo W) (st' : LLVM_Util W),
     push_function_mask (VWideBool predicate) st = Ok (tt, st') /\
     m_mask_stack st' = new :: m_mask_stack st /\
     applied_return_mask_count new = 0 /\
     m_masked_return_count_stack st' = 0 :: m_masked_return_count_stack st).
Proof.
  intros Hst Hna. split.
  - rewrite (push_mask_on_entry _ _ _ _ _ _ _ _ Hst), Hna.
    eexists. split; reflexivity.
  - rewrite push_function_mask_Ok.
    eexists. eexists. split; [reflexivity|]. simpl. auto.
Qed.

(** ** Negated pushes *)

(** C8.  Pushing [m] negated, reading the current mask and popping gives
    [~m] on an empty stack and [~m AND priorCurrent] on a non-empty one,
    whether the prior top is negated or not, and leaves the object as it
    was; [current_mask] resolves a negated entry with
    [select(mask, false, true)]. *)
Theorem negated_push_yields_complement (st : LLVM_Util W) (m : wide_bool W) :
  (m_mask_stack st = [] ->
   negated_push_current_pop m st = Ok (VWideBool (complement m), st)) /\
  (forall mi rest p priorCurrent,
     m_mask_stack st = mi :: rest ->
     mask mi = VWideBool p ->
     current_mask st = Ok (VWideBool priorCurrent, st) ->
     negated_push_current_pop m st =
       Ok (VWideBool (lanes_and (complement m) priorCurrent), st)) /\
  (forall mi rest,
     m_mask_stack st = mi :: rest -> negate mi = true ->
     current_mask st =
       (emit (CreateSelect (mask mi) (wide_constant_bool false)
                           (wide_constant_bool true))) st).
Proof.
  split; [|split].
  - intros Hst. destruct st; simpl in Hst; subst.
    unfold negated_push_current_pop, push_mask, current_mask, pop_mask. run.
    rewrite select_false_true. reflexivity.
  - intros [mk neg cnt] rest p priorCurrent Hst Hp Hcur.
    rewrite (current_mask_top_inv _ _ _ _ _ Hst Hp Hcur).
    clear Hcur. simpl in Hp. destruct st; simpl in Hst; subst.
    unfold negated_push_current_pop, push_mask, current_mask, pop_mask. run.
    destruct neg; simpl.
    + rewrite select_false_true. do 3 f_equal.
      by_lanes. destruct (p !!! lane), (m !!! lane); reflexivity.
    + do 3 f_equal.
      by_lanes. destruct (p !!! lane), (m !!! lane); reflexivity.
  - intros mi rest Hst Hneg. unfold current_mask. run.
    rewrite Hst. simpl. rewrite Hneg. reflexivity.
Qed.

(** ** Stores to the persistent mask slots *)

Lemma vlookup_cleared (p : wide_bool W) (neg : bool) (x : wide_bool W) (i : fin W) :
  cleared p neg x !!! i =
    if ((if neg then complement p else p) !!! i : bool) then false else x !!! i.
Proof.
  unfold cleared. destruct neg; simpl_lanes; destruct (p !!! i); reflexivity.
Qed.

Lemma cleared_idemp (p : wide_bool W) (neg : bool) (x : wide_bool W) :
  cleared p neg (cleared p neg x) = cleared p neg x.
Proof.
  apply vec_eq; intros i. rewrite !vlookup_cleared.
  destruct ((if neg then complement p else p) !!! i); reflexivity.
Qed.

(** [op_masked_return] rewrites the innermost function's mask slot,
    turning off the lanes of the current mask and keeping the others, and
    adds one to that function's return count; nothing else in the object
    changes. *)
Lemma op_masked_return_clears_current_lanes
    (st : LLVM_Util W) (mi : MaskInfo W) (rest : list (MaskInfo W))
    (p act fm : wide_bool W)
    (loc_of_function_mask : loc) (allocas : list loc) (cnt : Z) (counts : list Z) :
  m_mask_stack st = mi :: rest ->
  mask mi = VWideBool p ->
  current_mask st = Ok (VWideBool act, st) ->
  m_alloca_for_modified_mask_stack st = loc_of_function_mask :: allocas ->
  memory st !! loc_of_function_mask = Some (Some (VWideBool fm)) ->
  m_masked_return_count_stack st = cnt :: counts ->
  cnt < INT_MAX ->
  exists fm',
    op_masked_return st =
      Ok (tt, with_masked_return_count_stack ((cnt + 1) :: counts)
                (with_memory
                   (<[loc_of_function_mask := Some (VWideBool fm')]> (memory st))
                   st)) /\
    forall lane : fin W,
      fm' !!! lane = if (act !!! lane : bool) then false else fm !!! lane.
Proof.
  intros Hst Hp Hcur Hallocas Hmem Hcounts Hcnt.
  rewrite (current_mask_top_inv _ _ _ _ _ Hst Hp Hcur). clear Hcur.
  exists (cleared p (negate mi) fm). split; [|intros lane; apply vlookup_cleared].
  pose proof (lookup_lt_Some _ _ _ Hmem) as Hlt.
  destruct mi as [mk neg c]. simpl in Hp. subst mk.
  destruct st. simpl in *. subst.
  unfold op_masked_return, op_load, CreateLoad, push_masking_enabled, op_store,
    pop_masking_enabled, CreateStore, incr.
  run. rewrite Hmem. simpl.
  destruct neg; simpl;
    rewrite ?orb_true_r; simpl;
    rewrite !(bool_decide_eq_true_2 _ Hlt); simpl;
    rewrite !(bool_decide_eq_true_2 _ Hcnt); reflexivity.
Qed.

(** C4.  [op_masked_exit] turns off the lanes of the current mask in the
    shader's slot (the front of the slot stack), does the same to the
    innermost function's slot (the back) when more than one scope is
    open, and adds one to the exit count and to the innermost return
    count; the other slots and the stacks are left alone. *)
Theorem op_masked_exit_clears_current_lanes
    (st : LLVM_Util W) (mi : MaskInfo W) (rest : list (MaskInfo W))
    (p act sm fm : wide_bool W)
    (loc_of_shader_mask loc_of_function_mask : loc) (outer : list loc)
    (cnt : Z) (counts : list Z) :
  m_mask_stack st = mi :: rest ->
  mask mi = VWideBool p ->
  current_mask st = Ok (VWideBool act, st) ->
  m_alloca_for_modified_mask_stack st = loc_of_function_mask :: outer ->
  front (m_alloca_for_modified_mask_stack st) = Some loc_of_shader_mask ->
  memory st !! loc_of_shader_mask = Some (Some (VWideBool sm)) ->
  memory st !! loc_of_function_mask = Some (Some (VWideBool fm)) ->
  m_masked_return_count_stack st = cnt :: counts ->
  cnt < INT_MAX ->
  m_masked_exit_count st < INT_MAX ->
  exists st',
    op_masked_exit st = Ok (tt, st') /\
    (exists sm',
       memory st' !! loc_of_shader_mask = Some (Some (VWideBool sm')) /\
       forall lane : fin W,
         sm' !!! lane = if (act !!! lane : bool) then false else sm !!! lane) /\
    ((1 < size (m_alloca_for_modified_mask_stack st))%nat ->
     exists fm',
       memory st' !! loc_of_function_mask = Some (Some (VWideBool fm')) /\
       forall lane : fin W,
         fm' !!! lane = if (act !!! lane : bool) then false else fm !!! lane) /\
    (forall l : loc,
       l <> loc_of_shader_mask -> l <> loc_of_function_mask ->
       memory st' !! l = memory st !! l) /\
    m_masked_exit_count st' = m_masked_exit_count st + 1 /\
    m_masked_return_count_stack st' = (cnt + 1) :: counts /\
    m_mask_stack st' = m_mask_stack st /\
    m_alloca_for_modified_mask_stack st' = m_alloca_for_modified_mask_stack st /\
    m_enable_masking_stack st' = m_enable_masking_stack st /\
    m_masked_loop_stack st' = m_masked_loop_stack st.
Proof.
  intros Hst Hp Hcur Hallocas Hfront Hsm Hfm Hcounts Hcnt Hexit.
  rewrite (current_mask_top_inv _ _ _ _ _ Hst Hp Hcur). clear Hcur.
  pose proof (lookup_lt_Some _ _ _ Hsm) as Hlts.
  pose proof (lookup_lt_Some _ _ _ Hfm) as Hltf.
  destruct mi as [mk neg c]. simpl in Hp. subst mk.
  destruct st. simpl in *. subst.
  unfold op_masked_exit, op_load, CreateLoad, push_masking_enabled, op_store,
    pop_masking_enabled, CreateStore, incr, size.
  unfold mbind, M_bind, mret, M_ret, gets, modify, ASSERT, emit, defined,
    back, push_back, pop_back, empty. simpl.
  rewrite Hfront. simpl. rewrite Hsm. simpl.
  assert (Hsel : forall x : wide_bool W,
             (if neg
              then fun s : LLVM_Util W => Ok (VWideBool (vselect p x p), s)
              else fun s : LLVM_Util W =>
                     Ok (VWideBool (vselect p (vreplicate W false) x), s))
             = fun s : LLVM_Util W => Ok (VWideBool (cleared p neg x), s)).
  { intros x. unfold cleared. destruct neg; reflexivity. }
  rewrite Hsel. simpl.
  rewrite (bool_decide_eq_true_2 _ Hlts). simpl.
  destruct outer as [|o os].
  - (* a single scope: the function's slot is the shader's slot *)
    injection Hfront as <-.
    rewrite bool_decide_eq_false_2 by (simpl; lia). simpl.
    rewrite (bool_decide_eq_true_2 _ Hexit). simpl.
    rewrite (bool_decide_eq_true_2 _ Hcnt). simpl.
    eexists. split; [reflexivity|]. simpl.
    split; [|split; [intros Hgt; simpl in Hgt; lia|]].
    + eexists. split; [rewrite list_lookup_insert_eq by exact Hlts; reflexivity|].
      intros lane. apply vlookup_cleared.
    + split; [|auto 10].
      intros l Hl _. rewrite list_lookup_insert_ne by congruence. reflexivity.
  - (* nested scopes: the innermost function's slot is rewritten as well *)
    rewrite bool_decide_eq_true_2 by (simpl; lia). simpl.
    assert (Hld : exists x : wide_bool W,
               <[loc_of_shader_mask := Some (VWideBool (cleared p neg sm))]> memory0
                 !! loc_of_function_mask = Some (Some (VWideBool x)) /\
               cleared p neg x = cleared p neg fm).
    { destruct (decide (loc_of_function_mask = loc_of_shader_mask)) as [->|Hne].
      - exists (cleared p neg sm).
        rewrite list_lookup_insert_eq by exact Hlts. split; [reflexivity|].
        rewrite cleared_idemp. congruence.
      - exists fm. rewrite list_lookup_insert_ne by congruence.
        split; [exact Hfm | reflexivity]. }
    destruct Hld as (x & Hld & Hx). rewrite Hld. simpl.
    rewrite Hsel. simpl. rewrite length_insert.
    rewrite (bool_decide_eq_true_2 _ Hltf). simpl.
    rewrite (bool_decide_eq_true_2 _ Hexit). simpl.
    rewrite (bool_decide_eq_true_2 _ Hcnt). simpl.
    eexists. split; [reflexivity|]. simpl. rewrite Hx.
    split; [|split; [intros _|split; [|auto 10]]].
    + destruct (decide (loc_of_function_mask = loc_of_shader_mask)) as [->|Hne].
      * assert (fm = sm) as -> by congruence.
        exists (cleared p neg sm).
        rewrite list_lookup_insert_eq by (rewrite length_insert; exact Hlts).
        split; [reflexivity|].
        intros lane. apply vlookup_cleared.
      * exists (cleared p neg sm).
        rewrite list_lookup_insert_ne by exact Hne.
        rewrite list_lookup_insert_eq by exact Hlts.
        split; [reflexivity|]. intros lane. apply vlookup_cleared.
    + exists (cleared p neg fm).
      rewrite list_lookup_insert_eq by (rewrite length_insert; exact Hltf).
      split; [reflexivity|]. intros lane. apply vlookup_cleared.
    + intros l Hl1 Hl2. rewrite !list_lookup_insert_ne by congruence.
      reflexivity.
Qed.

(** ** The masked store *)

(** The store is unconditional when the mask stack is empty, when the
    value is not a vector, or when masking is not enabled (the stack of
    enable flags is empty or has [false] on top). *)
Lemma op_store_unmasked (st : LLVM_Util W) (val : value W) (ptr : loc) :
  m_mask_stack st = [] \/
  isVectorTy val = false \/
  m_enable_masking_stack st = [] \/
  back (m_enable_masking_stack st) = Some false ->
  op_store val ptr st = CreateStore val ptr st.
Proof.
  intros H. unfold op_store.
  unfold mbind, M_bind, gets. simpl.
  destruct H as [H | [H | [H | H]]]; rewrite H; simpl;
    rewrite ?orb_true_r; reflexivity.
Qed.

(** Otherwise the stored value is, lane by lane, the new value where the
    current mask is on and the value already in memory where it is off. *)
Lemma op_store_masked
    (st : LLVM_Util W) (mi : MaskInfo W) (rest : list (MaskInfo W))
    (p act : wide_bool W)
    (val previous_value : value W) (ptr : loc) :
  m_mask_stack st = mi :: rest ->
  mask mi = VWideBool p ->
  current_mask st = Ok (VWideBool act, st) ->
  isVectorTy val = true ->
  back (m_enable_masking_stack st) = Some true ->
  memory st !! ptr = Some (Some previous_value) ->
  same_type val previous_value = true ->
  exists blended_value,
    CreateSelect (VWideBool act) val previous_value = Ok blended_value /\
    op_store val ptr st =
      Ok (tt, with_memory (<[ptr := Some blended_value]> (memory st)) st) /\
    forall lane : fin W,
      CreateExtractElement blended_value lane =
        if (act !!! lane : bool) then CreateExtractElement val lane
        else CreateExtractElement previous_value lane.
Proof.
  intros Hst Hp Hcur Hvec Hen Hmem Hty.
  rewrite (current_mask_top_inv _ _ _ _ _ Hst Hp Hcur). clear Hcur.
  pose proof (lookup_lt_Some _ _ _ Hmem) as Hlt.
  destruct mi as [mk neg c]. simpl in Hp. subst mk.
  assert (Hblend : exists blended_value,
    CreateSelect (VWideBool (if neg then complement p else p)) val previous_value
      = Ok blended_value /\
    (if neg then CreateSelect (VWideBool p) previous_value val
     else CreateSelect (VWideBool p) val previous_value) = Ok blended_value /\
    forall lane : fin W,
      CreateExtractElement blended_value lane =
        if ((if neg then complement p else p) !!! lane : bool)
        then CreateExtractElement val lane
        else CreateExtractElement previous_value lane).
  { destruct val as [| | |v|v]; try discriminate Hvec;
      destruct previous_value as [| | |pv|pv]; try discriminate Hty;
      destruct neg; simpl; eexists; (split; [reflexivity|]);
      (split; [try reflexivity; do 2 f_equal; by_lanes;
               destruct (p !!! lane); reflexivity|]);
      intros lane; simpl; simpl_lanes;
      destruct (p !!! lane); reflexivity. }
  destruct Hblend as (blended_value & Hsel & Hcode & Hlanes).
  exists blended_value. split; [exact Hsel|]. split; [|exact Hlanes].
  unfold op_store, CreateLoad, CreateStore.
  unfold mbind, M_bind, mret, M_ret, gets, modify, ASSERT, emit, defined. simpl.
  rewrite Hst, Hen, Hvec. simpl. rewrite Hmem. simpl.
  destruct neg; simpl in *; rewrite Hcode;
    rewrite (bool_decide_eq_true_2 _ Hlt); reflexivity.
Qed.

(** ** Folding a deferred return into the mask stack *)

Lemma narrowed_current (p : wide_bool W) (neg : bool) (rs_mask : wide_bool W) :
  (if neg then complement (narrowed p neg rs_mask) else narrowed p neg rs_mask)
  = lanes_and (if neg then complement p else p) rs_mask.
Proof.
  unfold narrowed. destruct neg; by_lanes;
    destruct (rs_mask !!! lane), (p !!! lane); reflexivity.
Qed.

Lemma apply_return_to_mask_stack_fold
    (st : LLVM_Util W) (p rs_mask : wide_bool W) (neg : bool) (c cnt : Z)
    (rest : list (MaskInfo W)) (counts : list Z)
    (loc_of_return_mask : loc) (allocas : list loc) :
  m_mask_stack st = Build_MaskInfo (VWideBool p) neg c :: rest ->
  m_masked_return_count_stack st = cnt :: counts ->
  cnt > c ->
  m_alloca_for_modified_mask_stack st = loc_of_return_mask :: allocas ->
  memory st !! loc_of_return_mask = Some (Some (VWideBool rs_mask)) ->
  apply_return_to_mask_stack st =
    Ok (tt, with_mask_stack
              (Build_MaskInfo (VWideBool (narrowed p neg rs_mask)) neg cnt :: rest)
              st).
Proof.
  intros Hst Hcounts Hgt Hallocas Hmem.
  unfold apply_return_to_mask_stack, op_load, CreateLoad. run.
  rewrite Hst. simpl. rewrite Hcounts. simpl.
  rewrite (bool_decide_eq_true_2 _ Hgt).
  rewrite Hallocas. simpl. rewrite Hmem. simpl.
  unfold narrowed. destruct neg; reflexivity.
Qed.

Lemma apply_return_to_mask_stack_noop
    (st : LLVM_Util W) (mi : MaskInfo W) (rest : list (MaskInfo W))
    (cnt : Z) (counts : list Z) :
  m_mask_stack st = mi :: rest ->
  m_masked_return_count_stack st = cnt :: counts ->
  cnt <= applied_return_mask_count mi ->
  apply_return_to_mask_stack st = Ok (tt, st).
Proof.
  intros Hst Hcounts Hle. unfold apply_return_to_mask_stack. run.
  rewrite Hst. simpl. rewrite Hcounts. simpl.
  rewrite bool_decide_eq_false_2 by lia. reflexivity.
Qed.

(** C6.  With the return count of the function above the count already
    applied to the top entry, [apply_return_to_mask_stack] narrows the
    entry by the function's mask slot, so that the current mask becomes
    its old value AND the slot, and records the count as applied; with
    the count not above it, nothing changes.  Either way a second call
    right after the first changes nothing. *)
Theorem apply_return_to_mask_stack_once
    (st : LLVM_Util W) (mi : MaskInfo W) (rest : list (MaskInfo W))
    (p act : wide_bool W)
    (cnt : Z) (counts : list Z) :
  m_mask_stack st = mi :: rest ->
  mask mi = VWideBool p ->
  current_mask st = Ok (VWideBool act, st) ->
  m_masked_return_count_stack st = cnt :: counts ->
  (cnt > applied_return_mask_count mi ->
   forall (loc_of_return_mask : loc) (allocas : list loc) (rs_mask : wide_bool W),
     m_alloca_for_modified_mask_stack st = loc_of_return_mask :: allocas ->
     memory st !! loc_of_return_mask = Some (Some (VWideBool rs_mask)) ->
     exists (p' : wide_bool W) (st' : LLVM_Util W),
       st' = with_mask_stack
               (Build_MaskInfo (VWideBool p') (negate mi) cnt :: rest) st /\
       apply_return_to_mask_stack st = Ok (tt, st') /\
       current_mask st' = Ok (VWideBool (lanes_and act rs_mask), st')) /\
  (cnt <= applied_return_mask_count mi ->
   apply_return_to_mask_stack st = Ok (tt, st)) /\
  (forall st' : LLVM_Util W,
     apply_return_to_mask_stack st = Ok (tt, st') ->
     apply_return_to_mask_stack st' = Ok (tt, st')).
Proof.
  intros Hst Hp Hcur Hcounts.
  rewrite (current_mask_top_inv _ _ _ _ _ Hst Hp Hcur). clear Hcur.
  destruct mi as [mk neg c]. simpl in *. subst mk.
  split; [|split].
  - intros Hgt loc_of_return_mask allocas rs_mask Hallocas Hmem.
    exists (narrowed p neg rs_mask). eexists. split; [reflexivity|]. split.
    + eapply apply_return_to_mask_stack_fold; eassumption.
    + erewrite current_mask_top by reflexivity. simpl.
      rewrite narrowed_current. reflexivity.
  - intros Hle. eapply apply_return_to_mask_stack_noop; eassumption.
  - intros st' Happly.
    destruct (Z_le_gt_dec cnt c) as [Hle|Hgt].
    + rewrite (apply_return_to_mask_stack_noop _ _ _ _ _ Hst Hcounts Hle) in Happly.
      injection Happly as <-.
      eapply apply_return_to_mask_stack_noop; eassumption.
    + revert Happly.
      unfold apply_return_to_mask_stack at 1. unfold op_load, CreateLoad. run.
      rewrite Hst. simpl. rewrite Hcounts. simpl.
      rewrite (bool_decide_eq_true_2 _ Hgt).
      destruct (m_alloca_for_modified_mask_stack st) as [|l allocas]; simpl;
        [discriminate|].
      destruct (mjoin (memory st !! l)) as [rs|]; simpl; [|discriminate].
      destruct neg;
        (destruct (CreateSelect _ _ _) as [new_mask| |]; simpl; try discriminate);
        intros [= <-];
        (eapply apply_return_to_mask_stack_noop;
         [reflexivity | simpl; exact Hcounts | simpl; lia]).
Qed.

(** ** Popping the three stacks *)

Lemma pop_mask_empty (st : LLVM_Util W) :
  m_mask_stack st = [] -> pop_mask st = AssertionFailed.
Proof. intros H. unfold pop_mask. run. rewrite H. reflexivity. Qed.

(** A function scope is one entry of [m_alloca_for_modified_mask_stack]
    and one of [m_masked_return_count_stack]; with either of them empty
    [pop_function_mask] stops on an ASSERT, its own or the one of
    [pop_mask]. *)
Lemma pop_function_mask_empty (st : LLVM_Util W) :
  m_alloca_for_modified_mask_stack st = [] \/
  m_masked_return_count_stack st = [] ->
  pop_function_mask st = AssertionFailed.
Proof.
  intros H. unfold pop_function_mask, pop_mask. run.
  destruct (m_mask_stack st) as [|mi rest]; simpl; [reflexivity|].
  destruct H as [H|H].
  - rewrite H. reflexivity.
  - destruct (m_alloca_for_modified_mask_stack st) as [|l allocas]; simpl;
      [reflexivity|].
    rewrite H. reflexivity.
Qed.

(** [pop_masked_loop] has no such check: on an empty loop stack it calls
    [pop_back] on an empty vector. *)
Lemma pop_masked_loop_empty (st : LLVM_Util W) :
  m_masked_loop_stack st = [] -> pop_masked_loop st = Undefined.
Proof. intros H. unfold pop_masked_loop. run. rewrite H. reflexivity. Qed.

(** ** The pending-signal queries *)

(** C10.  [masked_break_count] and [masked_continue_count] always return,
    and return 0 when no loop is open; [masked_return_count] stops on its
    ASSERT when no function scope is open and returns the innermost
    count otherwise.  None of them changes the object. *)
Theorem pending_signal_queries (st : LLVM_Util W) :
  (m_masked_loop_stack st = [] ->
   masked_break_count st = Ok (0, st) /\ masked_continue_count st = Ok (0, st)) /\
  (exists nb nc : Z,
     masked_break_count st = Ok (nb, st) /\ masked_continue_count st = Ok (nc, st)) /\
  (m_masked_return_count_stack st = [] ->
   masked_return_count st = AssertionFailed) /\
  (forall (cnt : Z) (counts : list Z),
     m_masked_return_count_stack st = cnt :: counts ->
     masked_return_count st = Ok (cnt, st)).
Proof.
  unfold masked_break_count, masked_continue_count, masked_return_count. run.
  repeat split.
  - rewrite H. reflexivity.
  - rewrite H. reflexivity.
  - destruct (m_masked_loop_stack st) as [|loop loops]; simpl; eauto.
  - intros H. rewrite H. reflexivity.
  - intros cnt counts H. rewrite H. reflexivity.
Qed.

(** ** Lane masks and integer bitmasks *)

Lemma fun_to_vec_ext {A n} (f g : fin n -> A) :
  (forall i, f i = g i) -> fun_to_vec f = fun_to_vec g.
Proof.
  intros H. apply vec_eq. intros i. rewrite !lookup_fun_to_vec. apply H.
Qed.

(** Packing the low [n] bits of [b] gives [b] modulo [2^n]. *)
Lemma pack_bits_testbit (n : nat) (b : Z) :
  pack_bits (vec_to_list (fun_to_vec (fun i : fin n => Z.testbit b (Z.of_nat i))))
  = b mod 2 ^ Z.of_nat n.
Proof.
  revert b. induction n as [|n IH]; intros b.
  - simpl. rewrite Z.mod_1_r. reflexivity.
  - cbn [fun_to_vec vec_to_list pack_bits].
    rewrite (fun_to_vec_ext _ (fun i : fin n => Z.testbit (b / 2) (Z.of_nat i))).
    + rewrite IH. cbn [fin_to_nat]. change (Z.of_nat 0) with 0.
      rewrite Z.bit0_mod.
      rewrite Nat2Z.inj_succ, Z.pow_succ_r by lia.
      rewrite Z.rem_mul_r by lia. reflexivity.
    + intros i. unfold compose. cbn [fin_to_nat].
      rewrite Nat2Z.inj_succ. rewrite Z.div2_bits by lia.
      reflexivity.
Qed.

(** A lane of the synthesized mask: the bit of [b] selected by the lane's
    filter [2^i]. *)
Lemma land_pow2_ne_0 (b i : Z) :
  0 <= i -> negb (Z.land b (2 ^ i) =? 0) = Z.testbit b i.
Proof.
  intros Hi. destruct (Z.testbit b i) eqn:E.
  - destruct (Z.eqb_spec (Z.land b (2 ^ i)) 0) as [H0|]; [|reflexivity].
    assert (Z.testbit (Z.land b (2 ^ i)) i = true) as Hbit.
    { rewrite Z.land_spec, E, Z.pow2_bits_true by lia. reflexivity. }
    rewrite H0, Z.bits_0 in Hbit. discriminate.
  - assert (Z.land b (2 ^ i) = 0) as ->; [|reflexivity].
    apply Z.bits_inj'. intros n Hn.
    rewrite Z.land_spec, Z.bits_0.
    destruct (Z.eq_dec i n) as [<-|Hne].
    + rewrite E. reflexivity.
    + rewrite Z.pow2_bits_false by lia. apply andb_false_r.
Qed.

Lemma wrap_int_small (z : Z) : 0 <= z < 2 ^ 31 -> wrap_int z = z.
Proof. intros H. unfold wrap_int. rewrite Z.mod_small; lia. Qed.

(** The synthesized mask has in lane [i] bit [i] of the integer, for lane
    counts whose filters [1 << i] fit an [int]. *)
Lemma synthesized_mask_lanes (b : Z) :
  (W <= 31)%nat ->
  vzip_with (fun p q => negb (p =? q))
    (vzip_with Z.land (vreplicate W b)
       (fun_to_vec (fun lane_index : fin W =>
                      wrap_int (Z.shiftl 1 (Z.of_nat lane_index)))))
    (vreplicate W 0)
  = fun_to_vec (fun i : fin W => Z.testbit b (Z.of_nat i)).
Proof.
  intros HW. apply vec_eq. intros i.
  rewrite !vlookup_zip_with, !vlookup_replicate, !lookup_fun_to_vec.
  pose proof (fin_to_nat_lt i) as Hi.
  rewrite Z.shiftl_1_l. rewrite wrap_int_small.
  - apply land_pow2_ne_0. lia.
  - split; [apply Z.pow_nonneg; lia|]. apply Z.pow_lt_mono_r; lia.
Qed.

(** C7, for the lane count the code is written for.  With sixteen lanes,
    [mask_as_int (int_as_mask b)] is [b] for every [0 <= b < 2^16],
    whether [int_as_mask] reinterprets the integer
    ([m_supports_native_bit_masks]) or synthesizes the mask by splat,
    AND with the lane filters and compare with zero. *)
Theorem mask_as_int_int_as_mask (st : LLVM_Util W) (b : Z) :
  m_vector_width = 16%nat ->
  0 <= b < 2 ^ Z.of_nat m_vector_width ->
  (mask ← int_as_mask (VInt b); mask_as_int mask) st = Ok (VInt b, st).
Proof.
  intros HW Hb.
  assert (HW' : Z.of_nat W = 16) by lia. rewrite HW' in Hb.
  assert (Hmod : (b mod 2 ^ Z.of_nat W) mod 2 ^ 16 = b).
  { rewrite HW'. rewrite !Z.mod_small; [reflexivity | exact Hb | ].
    rewrite Z.mod_small; exact Hb. }
  unfold int_as_mask, mask_as_int, widen_value, op_and, op_ne, lane_filter,
    wide_constant.
  run. destruct (m_supports_native_bit_masks st); simpl.
  - rewrite (bool_decide_eq_true_2 _ HW). simpl.
    rewrite (bool_decide_eq_true_2 _ HW). simpl.
    rewrite pack_bits_testbit.
    rewrite (Z.mod_small b (2 ^ 16)) by exact Hb.
    rewrite Hmod. reflexivity.
  - rewrite (bool_decide_eq_true_2 _ HW). simpl.
    rewrite synthesized_mask_lanes by lia.
    rewrite pack_bits_testbit, Hmod. reflexivity.
Qed.

(** * Further properties of the masking code *)

(** ** Lanes *)

Lemma vlookup_lanes_or (a b : wide_bool W) (i : fin W) :
  lanes_or a b !!! i = a !!! i || b !!! i.
Proof. unfold lanes_or. apply vlookup_zip_with. Qed.

Lemma vlookup_lanes_without (a b : wide_bool W) (i : fin W) :
  lanes_without a b !!! i = a !!! i && negb (b !!! i).
Proof.
  unfold lanes_without. rewrite vlookup_lanes_and, vlookup_complement.
  reflexivity.
Qed.

Lemma vlookup_all_off (i : fin W) : (all_off : wide_bool W) !!! i = false.
Proof. unfold all_off. apply vlookup_replicate. Qed.

Ltac simpl_lanes' :=
  repeat first [ rewrite vlookup_vselect | rewrite vlookup_complement
               | rewrite vlookup_lanes_and | rewrite vlookup_replicate
               | rewrite vlookup_lanes_or | rewrite vlookup_lanes_without
               | rewrite vlookup_all_off | rewrite vlookup_cleared
               | rewrite vlookup_map | rewrite vlookup_zip_with ].

Ltac by_lanes' := apply vec_eq; intros lane; simpl_lanes'.

(** ** Balanced pushes and pops *)

(** X1.  A [push_mask] that goes through, followed by [pop_mask], leaves
    the object as it was: on an empty stack for every mask and flags, on
    a stack whose top holds a lane mask for every mask and every flags
    but negate with absolute. *)
Theorem push_mask_pop_mask
    (st : LLVM_Util W) (m : wide_bool W) (negate absolute : bool) :
  (m_mask_stack st = [] \/
   (negate && absolute = false /\
    exists (p : wide_bool W) (pn : bool) (pc : Z) (rest : list (MaskInfo W)),
      m_mask_stack st = Build_MaskInfo (VWideBool p) pn pc :: rest)) ->
  (push_mask (VWideBool m) negate absolute;; pop_mask) st = Ok (tt, st).
Proof.
  intros [Hst | [Hna (p & pn & pc & rest & Hst)]];
    destruct st; simpl in Hst; subst;
    unfold push_mask, pop_mask; run; [reflexivity|].
  destruct pn, negate, absolute; try discriminate Hna; reflexivity.
Qed.

(** X2.  [push_function_mask] followed by [pop_function_mask] always goes
    through and restores the mask stack, the slot stack and the return
    counts; what stays is the slot in memory, holding the start mask.
    For a shader instance the exit count is reset to 0 as well. *)
Theorem push_function_mask_pop_function_mask (st : LLVM_Util W) (m : wide_bool W) :
  (push_function_mask (VWideBool m);; pop_function_mask) st
    = Ok (tt, with_memory (memory st ++ [Some (VWideBool m)]) st) /\
  (push_shader_instance (VWideBool m);; pop_shader_instance) st
    = Ok (tt, with_masked_exit_count 0
                (with_memory (memory st ++ [Some (VWideBool m)]) st)).
Proof.
  split.
  - unfold mbind at 1, M_bind at 1. rewrite push_function_mask_Ok.
    destruct st. unfold pop_function_mask, pop_mask. run. reflexivity.
  - unfold push_shader_instance, pop_shader_instance.
    unfold mbind at 1, M_bind at 1. rewrite push_function_mask_Ok.
    destruct st. unfold pop_function_mask, pop_mask. run. reflexivity.
Qed.

(** ** Stores with masking disabled *)


(** ** Masked transfers followed by their fold *)

Lemma narrowed_idemp (p : wide_bool W) (neg : bool) (x : wide_bool W) :
  narrowed (narrowed p neg x) neg x = narrowed p neg x.
Proof.
  unfold narrowed. destruct neg; by_lanes';
    destruct (x !!! lane), (p !!! lane); reflexivity.
Qed.

Lemma narrowed_cleared_off (p : wide_bool W) (neg : bool) (x : wide_bool W) :
  (if neg then complement (narrowed p neg (cleared p neg x))
   else narrowed p neg (cleared p neg x)) = all_off.
Proof.
  rewrite narrowed_current. by_lanes'.
  destruct neg; simpl_lanes'; destruct (p !!! lane); reflexivity.
Qed.

(** [op_masked_return] on a well-typed object, in full. *)
Lemma op_masked_return_step
    (st : LLVM_Util W) (p fm : wide_bool W) (neg : bool) (c : Z)
    (rest : list (MaskInfo W)) (l : loc) (allocas : list loc)
    (cnt : Z) (counts : list Z) :
  m_mask_stack st = Build_MaskInfo (VWideBool p) neg c :: rest ->
  m_alloca_for_modified_mask_stack st = l :: allocas ->
  memory st !! l = Some (Some (VWideBool fm)) ->
  m_masked_return_count_stack st = cnt :: counts ->
  cnt < INT_MAX ->
  op_masked_return st =
    Ok (tt, with_masked_return_count_stack ((cnt + 1) :: counts)
              (with_memory
                 (<[l := Some (VWideBool (cleared p neg fm))]> (memory st)) st)).
Proof.
  intros Hst Hallocas Hmem Hcounts Hcnt.
  pose proof (lookup_lt_Some _ _ _ Hmem) as Hlt.
  destruct st. simpl in *. subst.
  unfold op_masked_return, op_load, CreateLoad, push_masking_enabled, op_store,
    pop_masking_enabled, CreateStore, incr, cleared.
  run. rewrite Hmem. simpl.
  destruct neg; simpl;
    rewrite ?orb_true_r; simpl;
    rewrite !(bool_decide_eq_true_2 _ Hlt); simpl;
    rewrite !(bool_decide_eq_true_2 _ Hcnt); reflexivity.
Qed.

(** X4.  After a masked return and the fold of the return into the entry
    it was issued under, no lane of the current mask is on: the code that
    follows in the same region runs with every lane masked off.  The
    entry's applied count must not be above the function's return count,
    which the fold asserts nowhere but relies on. *)
Theorem masked_return_then_fold_turns_lanes_off
    (st : LLVM_Util W) (p fm : wide_bool W) (neg : bool) (c : Z)
    (rest : list (MaskInfo W)) (l : loc) (allocas : list loc)
    (cnt : Z) (counts : list Z) :
  m_mask_stack st = Build_MaskInfo (VWideBool p) neg c :: rest ->
  m_alloca_for_modified_mask_stack st = l :: allocas ->
  memory st !! l = Some (Some (VWideBool fm)) ->
  m_masked_return_count_stack st = cnt :: counts ->
  cnt < INT_MAX ->
  c <= cnt ->
  exists st' : LLVM_Util W,
    (op_masked_return;; apply_return_to_mask_stack) st = Ok (tt, st') /\
    current_mask st' = Ok (VWideBool all_off, st') /\
    masked_return_count st' = Ok (cnt + 1, st').
Proof.
  intros Hst Hallocas Hmem Hcounts Hcnt Hc.
  pose proof (lookup_lt_Some _ _ _ Hmem) as Hlt.
  unfold mbind at 1, M_bind at 1.
  rewrite (op_masked_return_step _ _ _ _ _ _ _ _ _ _ Hst Hallocas Hmem Hcounts Hcnt).
  erewrite apply_return_to_mask_stack_fold;
    [ | simpl; exact Hst | simpl; reflexivity | lia
      | simpl; exact Hallocas
      | simpl; apply list_lookup_insert_eq; exact Hlt ].
  eexists. split; [reflexivity|]. split.
  - erewrite current_mask_top by reflexivity. simpl.
    rewrite narrowed_cleared_off. reflexivity.
  - unfold masked_return_count. run. reflexivity.
Qed.




(** ** Masked break and continue *)

(** The continue mask after a masked continue under the entry [(p, neg)]. *)
Lemma vlookup_continued (p : wide_bool W) (neg : bool) (x : wide_bool W) (i : fin W) :
  (if neg then vselect p x (vreplicate W true) else vselect p p x) !!! i
  = (if neg then complement p else p) !!! i || x !!! i.
Proof. destruct neg; simpl_lanes'; destruct (p !!! i), (x !!! i); reflexivity. Qed.

Lemma op_masked_break_step
    (st : LLVM_Util W) (p cond : wide_bool W) (neg : bool) (c : Z)
    (rest : list (MaskInfo W)) (lc : loc) (lcont : option loc) (bc cc : Z)
    (loops : list LoopInfo) :
  m_mask_stack st = Build_MaskInfo (VWideBool p) neg c :: rest ->
  m_masked_loop_stack st = Build_LoopInfo (Some lc) lcont bc cc :: loops ->
  memory st !! lc = Some (Some (VWideBool cond)) ->
  bc < INT_MAX ->
  op_masked_break st =
    Ok (tt, with_masked_loop_stack
              (Build_LoopInfo (Some lc) lcont (bc + 1) cc :: loops)
              (with_memory
                 (<[lc := Some (VWideBool (cleared p neg cond))]> (memory st))
                 st)).
Proof.
  intros Hst Hloops Hmem Hbc.
  pose proof (lookup_lt_Some _ _ _ Hmem) as Hlt.
  destruct st. simpl in *. subst.
  unfold op_masked_break, op_load, CreateLoad, push_masking_enabled,
    op_store, pop_masking_enabled, CreateStore, incr, cleared.
  run. rewrite Hmem. simpl.
  destruct neg; simpl;
    rewrite ?orb_true_r; simpl;
    rewrite !(bool_decide_eq_true_2 _ Hlt); simpl;
    rewrite !(bool_decide_eq_true_2 _ Hbc); reflexivity.
Qed.

Lemma op_masked_continue_step
    (st : LLVM_Util W) (p cont : wide_bool W) (neg : bool) (c : Z)
    (rest : list (MaskInfo W)) (lcond : option loc) (lc : loc) (bc cc : Z)
    (loops : list LoopInfo) :
  m_mask_stack st = Build_MaskInfo (VWideBool p) neg c :: rest ->
  m_masked_loop_stack st = Build_LoopInfo lcond (Some lc) bc cc :: loops ->
  memory st !! lc = Some (Some (VWideBool cont)) ->
  cc < INT_MAX ->
  op_masked_continue st =
    Ok (tt, with_masked_loop_stack
              (Build_LoopInfo lcond (Some lc) bc (cc + 1) :: loops)
              (with_memory
                 (<[lc := Some (VWideBool
                                  (if neg then vselect p cont (vreplicate W true)
                                   else vselect p p cont))]> (memory st))
                 st)).
Proof.
  intros Hst Hloops Hmem Hcc.
  pose proof (lookup_lt_Some _ _ _ Hmem) as Hlt.
  destruct st. simpl in *. subst.
  unfold op_masked_continue, op_load, CreateLoad, push_masking_enabled,
    op_store, pop_masking_enabled, CreateStore, incr.
  run. rewrite Hmem. simpl.
  destruct neg; simpl;
    rewrite ?orb_true_r; simpl;
    rewrite !(bool_decide_eq_true_2 _ Hlt); simpl;
    rewrite !(bool_decide_eq_true_2 _ Hcc); reflexivity.
Qed.

(** X7.  [op_masked_break] turns off the lanes of the current mask in the
    condition mask of the innermost loop, keeps its other lanes, and adds
    one to that loop's break count, which [masked_break_count] then
    reads; the rest of the object is unchanged.  Outside any loop it
    stops on its ASSERT. *)
Theorem op_masked_break_clears_condition_lanes
    (st : LLVM_Util W) (p cond : wide_bool W) (neg : bool) (c : Z)
    (rest : list (MaskInfo W)) (lc : loc) (lcont : option loc) (bc cc : Z)
    (loops : list LoopInfo) :
  m_mask_stack st = Build_MaskInfo (VWideBool p) neg c :: rest ->
  (m_masked_loop_stack st = [] -> op_masked_break st = AssertionFailed) /\
  (m_masked_loop_stack st = Build_LoopInfo (Some lc) lcont bc cc :: loops ->
   memory st !! lc = Some (Some (VWideBool cond)) ->
   bc < INT_MAX ->
   exists (cond' : wide_bool W) (st' : LLVM_Util W),
     st' = with_masked_loop_stack
             (Build_LoopInfo (Some lc) lcont (bc + 1) cc :: loops)
             (with_memory (<[lc := Some (VWideBool cond')]> (memory st)) st) /\
     op_masked_break st = Ok (tt, st') /\
     masked_break_count st' = Ok (bc + 1, st') /\
     forall lane : fin W,
       cond' !!! lane =
         if ((if neg then complement p else p) !!! lane : bool) then false
         else cond !!! lane).
Proof.
  intros Hst. split.
  - intros Hloops. unfold op_masked_break. run.
    rewrite Hst. simpl. rewrite Hloops. reflexivity.
  - intros Hloops Hmem Hbc.
    pose proof (lookup_lt_Some _ _ _ Hmem) as Hlt.
    exists (cleared p neg cond). eexists. split; [reflexivity|].
    split; [|split; [|intros lane; apply vlookup_cleared]].
    + eapply op_masked_break_step; eassumption.
    + unfold masked_break_count. run. reflexivity.
Qed.

(** X8.  [op_masked_continue] turns on the lanes of the current mask in
    the continue mask of the innermost loop, keeps its other lanes, and
    adds one to that loop's continue count, which
    [masked_continue_count] then reads.  Outside any loop it stops on its
    ASSERT. *)
Theorem op_masked_continue_sets_continue_lanes
    (st : LLVM_Util W) (p cont : wide_bool W) (neg : bool) (c : Z)
    (rest : list (MaskInfo W)) (lcond : option loc) (lc : loc) (bc cc : Z)
    (loops : list LoopInfo) :
  m_mask_stack st = Build_MaskInfo (VWideBool p) neg c :: rest ->
  (m_masked_loop_stack st = [] -> op_masked_continue st = AssertionFailed) /\
  (m_masked_loop_stack st = Build_LoopInfo lcond (Some lc) bc cc :: loops ->
   memory st !! lc = Some (Some (VWideBool cont)) ->
   cc < INT_MAX ->
   exists (cont' : wide_bool W) (st' : LLVM_Util W),
     st' = with_masked_loop_stack
             (Build_LoopInfo lcond (Some lc) bc (cc + 1) :: loops)
             (with_memory (<[lc := Some (VWideBool cont')]> (memory st)) st) /\
     op_masked_continue st = Ok (tt, st') /\
     masked_continue_count st' = Ok (cc + 1, st') /\
     forall lane : fin W,
       cont' !!! lane =
         (if neg then complement p else p) !!! lane || cont !!! lane).
Proof.
  intros Hst. split.
  - intros Hloops. unfold op_masked_continue. run.
    rewrite Hst. simpl. rewrite Hloops. reflexivity.
  - intros Hloops Hmem Hcc.
    pose proof (lookup_lt_Some _ _ _ Hmem) as Hlt.
    exists (if neg then vselect p cont (vreplicate W true) else vselect p p cont).
    eexists. split; [reflexivity|].
    split; [|split; [|intros lane; apply vlookup_continued]].
    + eapply op_masked_continue_step; eassumption.
    + unfold masked_continue_count. run. reflexivity.
Qed.

(** The mask [apply_continue_to_mask_stack] leaves in an entry
    [(p, neg)]: its current mask loses the lanes of the continue mask. *)
Lemma continue_fold_current (p : wide_bool W) (neg : bool) (x : wide_bool W) :
  (if neg
   then complement (if neg then vselect x (vreplicate W true) p
                    else vselect x (vreplicate W false) p)
   else (if neg then vselect x (vreplicate W true) p
         else vselect x (vreplicate W false) p))
  = lanes_without (if neg then complement p else p) x.
Proof.
  destruct neg; by_lanes'; destruct (x !!! lane), (p !!! lane); reflexivity.
Qed.

Lemma continue_fold_idemp (p : wide_bool W) (neg : bool) (x : wide_bool W) :
  (if neg
   then vselect x (vreplicate W true)
          (if neg then vselect x (vreplicate W true) p
           else vselect x (vreplicate W false) p)
   else vselect x (vreplicate W false)
          (if neg then vselect x (vreplicate W true) p
           else vselect x (vreplicate W false) p))
  = (if neg then vselect x (vreplicate W true) p
     else vselect x (vreplicate W false) p).
Proof.
  destruct neg; by_lanes'; destruct (x !!! lane), (p !!! lane); reflexivity.
Qed.

Lemma apply_break_to_mask_stack_step
    (st : LLVM_Util W) (p cond : wide_bool W) (neg : bool) (c : Z)
    (rest : list (MaskInfo W)) (lc : loc) (lcont : option loc) (bc cc : Z)
    (loops : list LoopInfo) :
  m_mask_stack st = Build_MaskInfo (VWideBool p) neg c :: rest ->
  m_masked_loop_stack st = Build_LoopInfo (Some lc) lcont bc cc :: loops ->
  memory st !! lc = Some (Some (VWideBool cond)) ->
  apply_break_to_mask_stack st =
    Ok (tt, with_mask_stack
              (Build_MaskInfo (VWideBool (narrowed p neg cond)) neg c :: rest) st).
Proof.
  intros Hst Hloops Hmem.
  unfold apply_break_to_mask_stack, op_load, CreateLoad, narrowed. run.
  rewrite Hst. simpl. rewrite Hloops. simpl. rewrite Hmem. simpl.
  destruct neg; reflexivity.
Qed.

Lemma apply_continue_to_mask_stack_step
    (st : LLVM_Util W) (p cont : wide_bool W) (neg : bool) (c : Z)
    (rest : list (MaskInfo W)) (lcond : option loc) (lc : loc) (bc cc : Z)
    (loops : list LoopInfo) :
  m_mask_stack st = Build_MaskInfo (VWideBool p) neg c :: rest ->
  m_masked_loop_stack st = Build_LoopInfo lcond (Some lc) bc cc :: loops ->
  memory st !! lc = Some (Some (VWideBool cont)) ->
  apply_continue_to_mask_stack st =
    Ok (tt, with_mask_stack
              (Build_MaskInfo
                 (VWideBool (if neg then vselect cont (vreplicate W true) p
                             else vselect cont (vreplicate W false) p))
                 neg c :: rest) st).
Proof.
  intros Hst Hloops Hmem.
  unfold apply_continue_to_mask_stack, op_load, CreateLoad. run.
  rewrite Hst. simpl. rewrite Hloops. simpl. rewrite Hmem. simpl.
  destruct neg; reflexivity.
Qed.

(** X9.  [apply_break_to_mask_stack] narrows the top entry by the
    condition mask of the innermost loop: the current mask becomes its
    old value AND the condition mask, and the counts are untouched.  It
    keeps no record of having been applied, and needs none: a second
    call changes nothing.  With no loop open it stops on its ASSERT; the
    location of the condition mask is dereferenced unchecked, so a loop
    pushed with a null location gives no defined behaviour. *)
Theorem apply_break_to_mask_stack_narrows
    (st : LLVM_Util W) (p : wide_bool W) (neg : bool) (c : Z)
    (rest : list (MaskInfo W)) :
  m_mask_stack st = Build_MaskInfo (VWideBool p) neg c :: rest ->
  (m_masked_loop_stack st = [] ->
   apply_break_to_mask_stack st = AssertionFailed) /\
  (forall lcont bc cc loops,
     m_masked_loop_stack st = Build_LoopInfo None lcont bc cc :: loops ->
     apply_break_to_mask_stack st = Undefined) /\
  (forall (lc : loc) lcont bc cc loops (cond : wide_bool W),
     m_masked_loop_stack st = Build_LoopInfo (Some lc) lcont bc cc :: loops ->
     memory st !! lc = Some (Some (VWideBool cond)) ->
     exists st' : LLVM_Util W,
       apply_break_to_mask_stack st = Ok (tt, st') /\
       current_mask st'
         = Ok (VWideBool (lanes_and (if neg then complement p else p) cond), st') /\
       m_masked_loop_stack st' = m_masked_loop_stack st /\
       apply_break_to_mask_stack st' = Ok (tt, st')).
Proof.
  intros Hst. split; [|split].
  - intros Hloops. unfold apply_break_to_mask_stack. run.
    rewrite Hst. simpl. rewrite Hloops. reflexivity.
  - intros lcont bc cc loops Hloops. unfold apply_break_to_mask_stack. run.
    rewrite Hst. simpl. rewrite Hloops. reflexivity.
  - intros lc lcont bc cc loops cond Hloops Hmem.
    rewrite (apply_break_to_mask_stack_step _ _ _ _ _ _ _ _ _ _ _ Hst Hloops Hmem).
    eexists. split; [reflexivity|]. split; [|split; [reflexivity|]].
    + erewrite current_mask_top by reflexivity. simpl.
      rewrite narrowed_current. reflexivity.
    + erewrite apply_break_to_mask_stack_step;
        [ | simpl; reflexivity | simpl; exact Hloops | simpl; exact Hmem ].
      rewrite narrowed_idemp. reflexivity.
Qed.

(** X10.  [apply_continue_to_mask_stack] takes the lanes of the continue
    mask of the innermost loop out of the top entry: the current mask
    becomes its old value AND NOT the continue mask.  A second call
    changes nothing; with no loop open it stops on its ASSERT. *)
Theorem apply_continue_to_mask_stack_narrows
    (st : LLVM_Util W) (p : wide_bool W) (neg : bool) (c : Z)
    (rest : list (MaskInfo W)) :
  m_mask_stack st = Build_MaskInfo (VWideBool p) neg c :: rest ->
  (m_masked_loop_stack st = [] ->
   apply_continue_to_mask_stack st = AssertionFailed) /\
  (forall lcond (lc : loc) bc cc loops (cont : wide_bool W),
     m_masked_loop_stack st = Build_LoopInfo lcond (Some lc) bc cc :: loops ->
     memory st !! lc = Some (Some (VWideBool cont)) ->
     exists st' : LLVM_Util W,
       apply_continue_to_mask_stack st = Ok (tt, st') /\
       current_mask st'
         = Ok (VWideBool (lanes_without (if neg then complement p else p) cont),
               st') /\
       m_masked_loop_stack st' = m_masked_loop_stack st /\
       apply_continue_to_mask_stack st' = Ok (tt, st')).
Proof.
  intros Hst. split.
  - intros Hloops. unfold apply_continue_to_mask_stack. run.
    rewrite Hst. simpl. rewrite Hloops. reflexivity.
  - intros lcond lc bc cc loops cont Hloops Hmem.
    rewrite (apply_continue_to_mask_stack_step _ _ _ _ _ _ _ _ _ _ _
               Hst Hloops Hmem).
    eexists. split; [reflexivity|]. split; [|split; [reflexivity|]].
    + erewrite current_mask_top by reflexivity. simpl.
      rewrite continue_fold_current. reflexivity.
    + erewrite apply_continue_to_mask_stack_step;
        [ | simpl; reflexivity | simpl; exact Hloops | simpl; exact Hmem ].
      rewrite continue_fold_idemp. reflexivity.
Qed.

(** X11.  After a masked break and [apply_break_to_mask_stack] no lane of
    the current mask is on, and after a masked continue and
    [apply_continue_to_mask_stack] likewise: the lanes that left the
    iteration do not run the rest of the region. *)
Theorem masked_break_or_continue_then_fold_turns_lanes_off
    (st : LLVM_Util W) (p x : wide_bool W) (neg : bool) (c : Z)
    (rest : list (MaskInfo W)) (lc : loc) (bc cc : Z) (loops : list LoopInfo) :
  m_mask_stack st = Build_MaskInfo (VWideBool p) neg c :: rest ->
  memory st !! lc = Some (Some (VWideBool x)) ->
  (forall lcont,
     m_masked_loop_stack st = Build_LoopInfo (Some lc) lcont bc cc :: loops ->
     bc < INT_MAX ->
     exists st' : LLVM_Util W,
       (op_masked_break;; apply_break_to_mask_stack) st = Ok (tt, st') /\
       current_mask st' = Ok (VWideBool all_off, st')) /\
  (forall lcond,
     m_masked_loop_stack st = Build_LoopInfo lcond (Some lc) bc cc :: loops ->
     cc < INT_MAX ->
     exists st' : LLVM_Util W,
       (op_masked_continue;; apply_continue_to_mask_stack) st = Ok (tt, st') /\
       current_mask st' = Ok (VWideBool all_off, st')).
Proof.
  intros Hst Hmem.
  pose proof (lookup_lt_Some _ _ _ Hmem) as Hlt.
  split.
  - intros lcont Hloops Hbc.
    unfold mbind at 1, M_bind at 1.
    rewrite (op_masked_break_step _ _ _ _ _ _ _ _ _ _ _ Hst Hloops Hmem Hbc).
    erewrite apply_break_to_mask_stack_step;
      [ | simpl; exact Hst | simpl; reflexivity
        | simpl; apply list_lookup_insert_eq; exact Hlt ].
    eexists. split; [reflexivity|].
    erewrite current_mask_top by reflexivity. simpl.
    rewrite narrowed_current. do 3 f_equal.
    by_lanes'.
    destruct ((if neg then complement p else p) !!! lane); reflexivity.
  - intros lcond Hloops Hcc.
    unfold mbind at 1, M_bind at 1.
    rewrite (op_masked_continue_step _ _ _ _ _ _ _ _ _ _ _ Hst Hloops Hmem Hcc).
    erewrite apply_continue_to_mask_stack_step;
      [ | simpl; exact Hst | simpl; reflexivity
        | simpl; apply list_lookup_insert_eq; exact Hlt ].
    eexists. split; [reflexivity|].
    erewrite current_mask_top by reflexivity. simpl.
    rewrite continue_fold_current. do 3 f_equal.
    by_lanes'. rewrite vlookup_continued.
    destruct ((if neg then complement p else p) !!! lane); reflexivity.
Qed.

(** ** Folding an exit *)

(** X12.  [apply_exit_to_mask_stack] narrows the innermost function's
    slot by the shader's slot, adds one to the function's return count,
    narrows the top entry by the new slot value and marks the count as
    applied: the current mask becomes its old value AND the function's
    slot AND the shader's slot, and a fold of the return right after it
    changes nothing.  It asserts that the bumped count is above the
    entry's applied count, and stops there otherwise. *)
Theorem apply_exit_to_mask_stack_narrows
    (st : LLVM_Util W) (p sm fm : wide_bool W) (neg : bool) (c : Z)
    (rest : list (MaskInfo W)) (ls lf : loc) (outer : list loc)
    (cnt : Z) (counts : list Z) :
  m_mask_stack st = Build_MaskInfo (VWideBool p) neg c :: rest ->
  m_alloca_for_modified_mask_stack st = lf :: outer ->
  front (m_alloca_for_modified_mask_stack st) = Some ls ->
  memory st !! ls = Some (Some (VWideBool sm)) ->
  memory st !! lf = Some (Some (VWideBool fm)) ->
  m_masked_return_count_stack st = cnt :: counts ->
  cnt < INT_MAX ->
  (c <= cnt ->
   exists st' : LLVM_Util W,
     apply_exit_to_mask_stack st = Ok (tt, st') /\
     memory st' = <[lf := Some (VWideBool (lanes_and fm sm))]> (memory st) /\
     m_masked_return_count_stack st' = (cnt + 1) :: counts /\
     current_mask st'
       = Ok (VWideBool (lanes_and (if neg then complement p else p)
                                  (lanes_and fm sm)), st') /\
     apply_return_to_mask_stack st' = Ok (tt, st')) /\
  (cnt < c -> apply_exit_to_mask_stack st = AssertionFailed).
Proof.
  intros Hst Hallocas Hfront Hsm Hfm Hcounts Hcnt.
  pose proof (lookup_lt_Some _ _ _ Hfm) as Hltf.
  assert (Hmod : vselect sm fm sm = lanes_and fm sm).
  { by_lanes'. destruct (sm !!! lane), (fm !!! lane); reflexivity. }
  assert (Hrun : forall b : bool,
    b = bool_decide (cnt + 1 > c) ->
    apply_exit_to_mask_stack st =
      if b then
        Ok (tt, with_mask_stack
                  (Build_MaskInfo (VWideBool (narrowed p neg (lanes_and fm sm)))
                                  neg (cnt + 1) :: rest)
                  (with_masked_return_count_stack ((cnt + 1) :: counts)
                     (with_memory
                        (<[lf := Some (VWideBool (lanes_and fm sm))]> (memory st))
                        st)))
      else AssertionFailed).
  { intros b ->. destruct st. simpl in *. subst.
    unfold apply_exit_to_mask_stack, op_load, CreateLoad, push_masking_enabled,
      op_store, pop_masking_enabled, CreateStore, incr, narrowed.
    unfold mbind, M_bind, mret, M_ret, gets, modify, ASSERT, emit, defined,
      back, push_back, pop_back, empty. simpl.
    rewrite Hfront. simpl. rewrite Hsm. simpl. rewrite Hfm. simpl.
    rewrite Hmod. rewrite ?orb_true_r. simpl.
    rewrite (bool_decide_eq_true_2 _ Hltf). simpl.
    rewrite (bool_decide_eq_true_2 _ Hcnt). simpl.
    destruct (bool_decide (cnt + 1 > c)); simpl; [|reflexivity].
    destruct neg; reflexivity. }
  split.
  - intros Hc. rewrite (Hrun true) by (rewrite bool_decide_eq_true_2; [reflexivity|lia]).
    eexists. split; [reflexivity|]. simpl.
    split; [reflexivity|]. split; [reflexivity|]. split.
    + erewrite current_mask_top by reflexivity. simpl.
      rewrite narrowed_current. reflexivity.
    + eapply apply_return_to_mask_stack_noop;
        [simpl; reflexivity | simpl; reflexivity | simpl; lia].
  - intros Hc. rewrite (Hrun false) by (rewrite bool_decide_eq_false_2; [reflexivity|lia]).
    reflexivity.
Qed.

(** X13.  [apply_return_to] gives the mask it is passed AND the innermost
    function's slot and does not change the object.  It asserts that a
    return was recorded in the function: with a return count of 0 it
    stops on the ASSERT. *)
Theorem apply_return_to_narrows
    (st : LLVM_Util W) (existing rs : wide_bool W)
    (l : loc) (allocas : list loc) (cnt : Z) (counts : list Z) :
  m_alloca_for_modified_mask_stack st = l :: allocas ->
  memory st !! l = Some (Some (VWideBool rs)) ->
  m_masked_return_count_stack st = cnt :: counts ->
  (cnt > 0 ->
   apply_return_to (VWideBool existing) st
     = Ok (VWideBool (lanes_and existing rs), st)) /\
  (cnt <= 0 -> apply_return_to (VWideBool existing) st = AssertionFailed).
Proof.
  intros Hallocas Hmem Hcounts.
  unfold apply_return_to, op_load, CreateLoad. run.
  rewrite Hcounts. simpl. split; intros Hc.
  - rewrite (bool_decide_eq_true_2 _ Hc). rewrite Hallocas. simpl.
    rewrite Hmem. simpl. do 3 f_equal.
    by_lanes'. destruct (rs !!! lane), (existing !!! lane); reflexivity.
  - rewrite bool_decide_eq_false_2 by lia. reflexivity.
Qed.

(** ** Loop scopes *)

(** X14.  The break and continue counts belong to the innermost loop:
    right after [push_masked_loop] both read 0 whatever the enclosing
    loops have counted, and a masked break inside the new loop is not
    counted in the enclosing ones: after push, break and
    [pop_masked_loop] the object differs from the one before the push
    only in the condition mask of the popped loop. *)
Theorem masked_loop_counts_are_per_loop
    (st : LLVM_Util W) (p cond : wide_bool W) (neg : bool) (c : Z)
    (rest : list (MaskInfo W)) (lc : loc) (lcont : option loc) :
  m_mask_stack st = Build_MaskInfo (VWideBool p) neg c :: rest ->
  memory st !! lc = Some (Some (VWideBool cond)) ->
  (exists st' : LLVM_Util W,
     push_masked_loop (Some lc) lcont st = Ok (tt, st') /\
     masked_break_count st' = Ok (0, st') /\
     masked_continue_count st' = Ok (0, st')) /\
  (exists cond' : wide_bool W,
     (push_masked_loop (Some lc) lcont;; op_masked_break;; pop_masked_loop) st
       = Ok (tt, with_memory (<[lc := Some (VWideBool cond')]> (memory st)) st)).
Proof.
  intros Hst Hmem. split.
  - unfold push_masked_loop, masked_break_count, masked_continue_count. run.
    eexists. split; [reflexivity|]. simpl. auto.
  - exists (cleared p neg cond).
    unfold mbind at 1, M_bind at 1. unfold push_masked_loop at 1. run.
    erewrite op_masked_break_step;
      [ | simpl; exact Hst | simpl; reflexivity | simpl; exact Hmem
        | unfold INT_MAX; lia ].
    destruct st. unfold pop_masked_loop. run. reflexivity.
Qed.

(** ** Bits of a packed mask *)

Lemma pack_bits_bounds (l : list bool) :
  0 <= pack_bits l < 2 ^ Z.of_nat (length l).
Proof.
  induction l as [|b l IH]; [simpl; lia|].
  cbn [pack_bits length]. rewrite Nat2Z.inj_succ, Z.pow_succ_r by lia.
  destruct b; simpl Z.b2z; lia.
Qed.

Lemma pack_bits_lookup (l : list bool) (i : nat) :
  Z.testbit (pack_bits l) (Z.of_nat i) = default false (l !! i).
Proof.
  revert i. induction l as [|b l IH]; intros i.
  - simpl. apply Z.bits_0.
  - cbn [pack_bits]. rewrite Z.add_comm. destruct i as [|i].
    + change (Z.of_nat 0) with 0. rewrite Z.testbit_0_r. reflexivity.
    + rewrite Nat2Z.inj_succ, Z.testbit_succ_r by lia. apply IH.
Qed.

Lemma pack_bits_all_off (l : list bool) :
  pack_bits l = 0 <-> Forall (fun b => b = false) l.
Proof.
  induction l as [|b l IH]; [simpl; split; [constructor|reflexivity]|].
  cbn [pack_bits]. rewrite Forall_cons, <- IH.
  pose proof (pack_bits_bounds l). destruct b; simpl Z.b2z; split;
    try (intros [? ?]); try split; try discriminate; lia.
Qed.

Lemma pack_bits_all_on (l : list bool) :
  pack_bits l = 2 ^ Z.of_nat (length l) - 1 <-> Forall (fun b => b = true) l.
Proof.
  induction l as [|b l IH]; [simpl; split; [constructor|reflexivity]|].
  cbn [pack_bits length]. rewrite Forall_cons, <- IH.
  rewrite Nat2Z.inj_succ, Z.pow_succ_r by lia.
  pose proof (pack_bits_bounds l). destruct b; simpl Z.b2z; split;
    try (intros [? ?]); try split; try discriminate; try reflexivity; lia.
Qed.

Lemma vec_lanes_testbit (m : wide_bool W) :
  fun_to_vec (fun i : fin W => Z.testbit (pack_bits (vec_to_list m)) (Z.of_nat i))
  = m.
Proof.
  apply vec_eq. intros i. rewrite lookup_fun_to_vec, pack_bits_lookup.
  rewrite (proj1 (vlookup_lookup m i (m !!! i)) eq_refl). reflexivity.
Qed.

Lemma some_lane_on (m : wide_bool W) :
  (exists lane : fin W, m !!! lane = true)
  <-> ~ Forall (fun b => b = false) (vec_to_list m).
Proof.
  rewrite <- elem_of_vlookup. rewrite Forall_forall. split.
  - intros Hin Hall. specialize (Hall true Hin). discriminate.
  - intros Hnot. destruct (decide (true ∈ vec_to_list m)) as [Hin|Hout];
      [exact Hin|]. exfalso. apply Hnot. intros b Hb.
    destruct b; [contradiction|reflexivity].
Qed.

Lemma some_lane_off (m : wide_bool W) :
  (exists lane : fin W, m !!! lane = false)
  <-> ~ Forall (fun b => b = true) (vec_to_list m).
Proof.
  rewrite <- elem_of_vlookup. rewrite Forall_forall. split.
  - intros Hin Hall. specialize (Hall false Hin). discriminate.
  - intros Hnot. destruct (decide (false ∈ vec_to_list m)) as [Hin|Hout];
      [exact Hin|]. exfalso. apply Hnot. intros b Hb.
    destruct b; [reflexivity|contradiction].
Qed.

(** ** Integers to masks and back *)

(** X15.  Without native bit masks [int_as_mask] works for every lane
    count up to 31: lane [i] of the mask it builds, as [test_mask_lane]
    reads it, is bit [i] of the integer, for any [int].  A lane index
    outside the vector gives [test_mask_lane] no defined result. *)
Theorem int_as_mask_lanes_are_bits (st : LLVM_Util W) (b lane_index : Z) :
  m_supports_native_bit_masks st = false ->
  (W <= 31)%nat ->
  (0 <= lane_index < Z.of_nat W ->
   (mask ← int_as_mask (VInt b); test_mask_lane mask lane_index) st
     = Ok (VBool (Z.testbit b lane_index), st)) /\
  (lane_index < 0 \/ Z.of_nat W <= lane_index ->
   (mask ← int_as_mask (VInt b); test_mask_lane mask lane_index) st
     = Undefined).
Proof.
  intros Hnative HW.
  assert (Hmask : int_as_mask (VInt b) st
                  = Ok (VWideBool (fun_to_vec
                          (fun i : fin W => Z.testbit b (Z.of_nat i))), st)).
  { unfold int_as_mask, widen_value, op_and, op_ne, lane_filter, wide_constant.
    run. rewrite Hnative. simpl.
    rewrite synthesized_mask_lanes by exact HW. reflexivity. }
  unfold mbind, M_bind. rewrite Hmask.
  unfold test_mask_lane, CreateExtractElement_at. run.
  split.
  - intros [H0 Hlt]. rewrite bool_decide_eq_true_2 by exact H0.
    assert (Hi : (Z.to_nat lane_index < W)%nat) by lia.
    pose proof (vlookup_lookup'
                  (fun_to_vec (fun i : fin W => Z.testbit b (Z.of_nat i)))
                  (Z.to_nat lane_index)
                  (Z.testbit b lane_index)) as [Hlook _].
    rewrite Hlook; [reflexivity|].
    exists Hi. rewrite lookup_fun_to_vec, fin_to_nat_to_fin.
    rewrite Z2Nat.id by exact H0. reflexivity.
  - intros [Hneg|Hge].
    + rewrite bool_decide_eq_false_2 by lia. reflexivity.
    + rewrite bool_decide_eq_true_2 by lia.
      rewrite (proj2 (lookup_ge_None _ _)); [reflexivity|].
      rewrite length_vec_to_list. lia.
Qed.

(** X16.  With sixteen lanes [mask_as_int] gives an [int] in
    [0, 2^16) whose bit [i] is lane [i], and [int_as_mask] gives the mask
    back from it, on its native path and on its synthesized one. *)
Theorem int_as_mask_mask_as_int (st : LLVM_Util W) (m : wide_bool W) :
  m_vector_width = 16%nat ->
  exists z : Z,
    mask_as_int (VWideBool m) st = Ok (VInt z, st) /\
    0 <= z < 2 ^ 16 /\
    (forall lane : fin W, Z.testbit z (Z.of_nat lane) = m !!! lane) /\
    int_as_mask (VInt z) st = Ok (VWideBool m, st).
Proof.
  intros HW.
  pose proof (pack_bits_bounds (vec_to_list m)) as Hb.
  rewrite length_vec_to_list in Hb.
  assert (HW' : Z.of_nat W = 16) by lia. rewrite HW' in Hb.
  exists (pack_bits (vec_to_list m)).
  split; [|split; [exact Hb|split]].
  - unfold mask_as_int. run. rewrite (bool_decide_eq_true_2 _ HW). simpl.
    rewrite Z.mod_small by exact Hb. reflexivity.
  - intros lane. rewrite pack_bits_lookup.
    rewrite (proj1 (vlookup_lookup m lane (m !!! lane)) eq_refl). reflexivity.
  - unfold int_as_mask, widen_value, op_and, op_ne, lane_filter, wide_constant.
    run. destruct (m_supports_native_bit_masks st); simpl.
    + rewrite (bool_decide_eq_true_2 _ HW). simpl.
      rewrite Z.mod_small by exact Hb. rewrite vec_lanes_testbit. reflexivity.
    + rewrite synthesized_mask_lanes by lia.
      rewrite vec_lanes_testbit. reflexivity.
Qed.

(** ** Tests on masks *)

Lemma concat_lanes_sext_nonneg (bits : Z) (l : list bool) :
  0 < bits ->
  0 <= concat_lanes bits ((fun b : bool => if b then 2 ^ bits - 1 else 0) <$> l).
Proof.
  intros Hbits. assert (0 < 2 ^ bits) by (apply Z.pow_pos_nonneg; lia).
  induction l as [|b l IH]; [simpl; lia|].
  cbn [fmap list_fmap concat_lanes]. destruct b; nia.
Qed.

Lemma concat_lanes_sext_zero (bits : Z) (l : list bool) :
  0 < bits ->
  concat_lanes bits ((fun b : bool => if b then 2 ^ bits - 1 else 0) <$> l) = 0
  <-> Forall (fun b => b = false) l.
Proof.
  intros Hbits. assert (2 <= 2 ^ bits).
  { change 2 with (2 ^ 1) at 1. apply Z.pow_le_mono_r; lia. }
  induction l as [|b l IH]; [simpl; split; [constructor|reflexivity]|].
  cbn [fmap list_fmap concat_lanes]. rewrite Forall_cons, <- IH.
  pose proof (concat_lanes_sext_nonneg bits l Hbits).
  destruct b; split; try (intros [? ?]); try split; try discriminate;
    try reflexivity; nia.
Qed.

(** X17.  For four, eight and sixteen lanes [test_if_mask_is_non_zero]
    returns true exactly when some lane of the mask is on; for every
    other lane count it stops on its ASSERT ("Unhandled vector width"). *)
Theorem test_if_mask_is_non_zero_some_lane_on (st : LLVM_Util W) (m : wide_bool W) :
  (m_vector_width = 4%nat \/ m_vector_width = 8%nat \/ m_vector_width = 16%nat ->
   exists b : bool,
     test_if_mask_is_non_zero (VWideBool m) st = Ok (VBool b, st) /\
     (b = true <-> exists lane : fin W, m !!! lane = true)) /\
  (m_vector_width <> 4%nat -> m_vector_width <> 8%nat ->
   m_vector_width <> 16%nat ->
   test_if_mask_is_non_zero (VWideBool m) st = AssertionFailed).
Proof.
  split.
  - intros HW.
    assert (Hrun : exists bits : Z,
               0 < bits /\
               test_if_mask_is_non_zero (VWideBool m) st
               = Ok (VBool (negb (concat_lanes bits
                       ((fun b : bool => if b then 2 ^ bits - 1 else 0)
                          <$> vec_to_list m) =? 0)), st)).
    { unfold test_if_mask_is_non_zero, CreateSExt_lanes,
        CreateBitCast_lanes_to_int. run.
      destruct HW as [HW|[HW|HW]].
      - exists 32. split; [lia|].
        rewrite (bool_decide_eq_true_2 _ HW). simpl.
        rewrite bool_decide_eq_true_2 by lia. simpl.
        rewrite vec_to_list_map. reflexivity.
      - exists 32. split; [lia|].
        rewrite bool_decide_eq_false_2 by lia.
        rewrite (bool_decide_eq_true_2 _ HW). simpl.
        rewrite bool_decide_eq_true_2 by lia. simpl.
        rewrite vec_to_list_map. reflexivity.
      - exists 8. split; [lia|].
        rewrite bool_decide_eq_false_2 by lia.
        rewrite bool_decide_eq_false_2 by lia.
        rewrite (bool_decide_eq_true_2 _ HW). simpl.
        rewrite bool_decide_eq_true_2 by lia. simpl.
        rewrite vec_to_list_map. reflexivity. }
    destruct Hrun as (bits & Hbits & Hrun). rewrite Hrun.
    eexists. split; [reflexivity|].
    rewrite some_lane_on, <- (concat_lanes_sext_zero bits _ Hbits).
    rewrite negb_true_iff, Z.eqb_neq. reflexivity.
  - intros H4 H8 H16. unfold test_if_mask_is_non_zero. run.
    rewrite !bool_decide_eq_false_2 by assumption. reflexivity.
Qed.

(** X18.  [test_if_mask_has_any_on_or_off] is written for sixteen lanes
    only.  There [any_on] is true exactly when some lane is on and
    [any_off] exactly when some lane is off; for every other lane count,
    four and eight included, it stops on an ASSERT. *)
Theorem test_if_mask_has_any_on_or_off_sixteen_lanes
    (st : LLVM_Util W) (m : wide_bool W) :
  (m_vector_width = 16%nat ->
   exists any_on any_off : bool,
     test_if_mask_has_any_on_or_off (VWideBool m) st
       = Ok ((VBool any_on, VBool any_off), st) /\
     (any_on = true <-> exists lane : fin W, m !!! lane = true) /\
     (any_off = true <-> exists lane : fin W, m !!! lane = false)) /\
  (m_vector_width <> 16%nat ->
   test_if_mask_has_any_on_or_off (VWideBool m) st = AssertionFailed).
Proof.
  split.
  - intros HW.
    unfold test_if_mask_has_any_on_or_off, op_ne. run.
    rewrite bool_decide_eq_false_2 by lia.
    rewrite bool_decide_eq_false_2 by lia.
    rewrite !(bool_decide_eq_true_2 _ HW). simpl.
    eexists. eexists. split; [reflexivity|].
    rewrite some_lane_on, some_lane_off.
    rewrite <- pack_bits_all_off, <- pack_bits_all_on.
    rewrite length_vec_to_list.
    assert (HW' : Z.of_nat W = 16) by lia. rewrite HW'.
    rewrite !negb_true_iff, !Z.eqb_neq. split; reflexivity.
  - intros HW. unfold test_if_mask_has_any_on_or_off. run.
    destruct (bool_decide (W = 4%nat)); [reflexivity|].
    destruct (bool_decide (W = 8%nat)); [reflexivity|].
    rewrite bool_decide_eq_false_2 by assumption. reflexivity.
Qed.

Lemma first_lane_on (l : list bool) :
  true ∈ l ->
  exists k : nat,
    l !! k = Some true /\ forall j : nat, (j < k)%nat -> l !! j = Some false.
Proof.
  induction l as [|b l IH]; intros Hin; [inversion Hin|].
  destruct b.
  - exists 0%nat. split; [reflexivity|]. intros j Hj. lia.
  - apply elem_of_cons in Hin as [Hin|Hin]; [discriminate|].
    destruct (IH Hin) as (k & Hk & Hbelow).
    exists (S k). split; [exact Hk|].
    intros [|j] Hj; [reflexivity|]. apply Hbelow. lia.
Qed.

Lemma count_trailing_zeros_pack_bits (bits : nat) (l : list bool) (k : nat) :
  (length l <= bits)%nat ->
  l !! k = Some true ->
  (forall j : nat, (j < k)%nat -> l !! j = Some false) ->
  count_trailing_zeros bits (pack_bits l) = Z.of_nat k.
Proof.
  revert bits l. induction k as [|k IH]; intros bits l Hlen Hk Hbelow;
    destruct l as [|b l]; try discriminate Hk;
    destruct bits as [|bits]; simpl in Hlen; try lia;
    cbn [count_trailing_zeros pack_bits].
  - injection Hk as ->. rewrite Z.odd_add_mul_2. reflexivity.
  - assert (b = false) as ->.
    { specialize (Hbelow 0%nat ltac:(lia)). injection Hbelow as ->. reflexivity. }
    rewrite Z.odd_add_mul_2. simpl Z.b2z. cbn [Z.odd].
    rewrite Z.add_0_l, Z.mul_comm, Z.div_mul by lia.
    rewrite (IH bits l); [lia | lia | exact Hk |].
    intros j Hj. apply (Hbelow (S j)). lia.
Qed.

Local Arguments count_trailing_zeros : simpl never.

(** X19.  [op_1st_active_lane_of] asserts sixteen lanes.  There, for a
    mask with some lane on, it returns the index of the lowest lane that
    is on; for the mask with no lane on the count of trailing zeros it
    emits has no defined value. *)
Theorem op_1st_active_lane_of_lowest_lane (st : LLVM_Util W) (m : wide_bool W) :
  (m_vector_width <> 16%nat ->
   op_1st_active_lane_of (VWideBool m) st = AssertionFailed) /\
  (m_vector_width = 16%nat ->
   (forall lane : fin W, m !!! lane = false) ->
   op_1st_active_lane_of (VWideBool m) st = Undefined) /\
  (m_vector_width = 16%nat ->
   (exists lane : fin W, m !!! lane = true) ->
   exists first : fin W,
     op_1st_active_lane_of (VWideBool m) st = Ok (VInt16 (Z.of_nat first), st) /\
     m !!! first = true /\
     forall lane : fin W, (lane < first)%nat -> m !!! lane = false).
Proof.
  split; [|split].
  - intros HW. unfold op_1st_active_lane_of. run.
    rewrite bool_decide_eq_false_2 by assumption. reflexivity.
  - intros HW Hoff. unfold op_1st_active_lane_of, CreateCall_cttz_i16. run.
    rewrite !(bool_decide_eq_true_2 _ HW). simpl.
    assert (pack_bits (vec_to_list m) = 0) as ->; [|reflexivity].
    apply pack_bits_all_off. apply Forall_forall. intros b Hb.
    apply elem_of_vlookup in Hb as [lane <-]. apply Hoff.
  - intros HW Hon.
    pose proof (proj1 (some_lane_on m) Hon) as Hnz.
    rewrite <- pack_bits_all_off in Hnz.
    apply elem_of_vlookup in Hon.
    destruct (first_lane_on _ Hon) as (k & Hk & Hbelow).
    pose proof (lookup_lt_Some _ _ _ Hk) as Hlt.
    rewrite length_vec_to_list in Hlt.
    exists (nat_to_fin Hlt). rewrite fin_to_nat_to_fin. split; [|split].
    + unfold op_1st_active_lane_of, CreateCall_cttz_i16. run.
      rewrite !(bool_decide_eq_true_2 _ HW). simpl.
      rewrite (proj2 (Z.eqb_neq _ _) Hnz).
      rewrite (count_trailing_zeros_pack_bits 16 _ k);
        [reflexivity | rewrite length_vec_to_list; lia | exact Hk | exact Hbelow].
    + apply vlookup_lookup. rewrite fin_to_nat_to_fin. exact Hk.
    + intros lane Hlane. apply vlookup_lookup. apply Hbelow. exact Hlane.
Qed.

(** X20.  [op_lanes_that_match_masked] turns on exactly the lanes that
    are on in the mask and whose wide value equals the scalar, so its
    result never has a lane outside the mask.  It asserts that the first
    operand is not a vector and that the second is one. *)
Theorem op_lanes_that_match_masked_lanes
    (st : LLVM_Util W) (scalar_value wide_value : value W)
    (s : Z) (w : vec Z W) (m : wide_bool W) :
  (exists r : wide_bool W,
     op_lanes_that_match_masked (VInt s) (VWideInt w) (VWideBool m) st
       = Ok (VWideBool r, st) /\
     forall lane : fin W,
       r !!! lane = (s =? w !!! lane) && m !!! lane) /\
  (isVectorTy scalar_value = true ->
   op_lanes_that_match_masked scalar_value wide_value (VWideBool m) st
     = AssertionFailed) /\
  (isVectorTy wide_value = false ->
   op_lanes_that_match_masked scalar_value wide_value (VWideBool m) st
     = AssertionFailed).
Proof.
  split; [|split].
  - unfold op_lanes_that_match_masked, widen_value, op_eq, op_and. run.
    eexists. split; [reflexivity|]. intros lane.
    rewrite !vlookup_zip_with, vlookup_replicate. reflexivity.
  - intros H. unfold op_lanes_that_match_masked. run. rewrite H. reflexivity.
  - intros H. unfold op_lanes_that_match_masked. run. rewrite H.
    destruct (isVectorTy scalar_value); reflexivity.
Qed.

(** ** Booleans and integers *)

(** X21.  [op_bool_to_int] followed by [op_int_to_bool] gives a boolean
    or a lane mask back unchanged, and [op_int_to_bool] followed by
    [op_bool_to_int] maps an [int] to 1 when it is not 0 and to 0 when
    it is.  A 16-bit integer, which is none of the types either handles,
    ends on the ASSERT. *)
Theorem op_bool_to_int_op_int_to_bool
    (st : LLVM_Util W) (b : bool) (m : wide_bool W) (z z16 : Z) :
  (x ← op_bool_to_int (VBool b); op_int_to_bool x) st = Ok (VBool b, st) /\
  (x ← op_bool_to_int (VWideBool m); op_int_to_bool x) st
    = Ok (VWideBool m, st) /\
  (x ← op_int_to_bool (VInt z); op_bool_to_int x) st
    = Ok (VInt (if z =? 0 then 0 else 1), st) /\
  op_bool_to_int (VInt16 z16) st = AssertionFailed /\
  op_int_to_bool (VInt16 z16) st = AssertionFailed.
Proof.
  unfold op_bool_to_int, op_int_to_bool, op_ne, wide_constant. run.
  split; [|split; [|split; [|split; reflexivity]]].
  - destruct b; reflexivity.
  - do 3 f_equal. apply vec_eq. intros lane.
    rewrite vlookup_zip_with, vlookup_map, vlookup_replicate.
    destruct (m !!! lane); reflexivity.
  - destruct (z =? 0); reflexivity.
Qed.

(** X22.  [negate_mask] is its own inverse, and the mask [current_mask]
    returns for a negated top entry is [negate_mask] of the stored one.
    A value that is not a lane mask stops [negate_mask] on its ASSERT. *)
Theorem negate_mask_resolves_negated_entry
    (st : LLVM_Util W) (p : wide_bool W) (c : Z) (rest : list (MaskInfo W)) :
  (x ← negate_mask (VWideBool p); negate_mask x) st = Ok (VWideBool p, st) /\
  (m_mask_stack st = Build_MaskInfo (VWideBool p) true c :: rest ->
   current_mask st = negate_mask (VWideBool p) st) /\
  (forall v : value W, is_wide_bool v = false -> negate_mask v st = AssertionFailed).
Proof.
  split; [|split].
  - unfold negate_mask. run. do 3 f_equal. apply vec_eq. intros lane.
    rewrite !vlookup_map. apply negb_involutive.
  - intros Hst. rewrite (current_mask_top _ _ _ _ Hst eq_refl). simpl.
    unfold negate_mask. run. reflexivity.
  - intros v Hv. unfold negate_mask. run. rewrite Hv. reflexivity.
Qed.

(** ** Well-formed objects stay well-formed *)

Lemma slot_holds_mask_insert
    (mem : list (option (value W))) (l l' : loc) (m : wide_bool W) :
  slot_holds_mask mem l ->
  slot_holds_mask (<[l' := Some (VWideBool m)]> mem) l.
Proof.
  intros [p Hp]. unfold slot_holds_mask.
  destruct (decide (l' = l)) as [->|Hne].
  - exists m. apply list_lookup_insert_eq. exact (lookup_lt_Some _ _ _ Hp).
  - exists p. rewrite list_lookup_insert_ne by exact Hne. exact Hp.
Qed.

Lemma slots_hold_masks_insert
    (mem : list (option (value W))) (ls : list loc) (l' : loc) (m : wide_bool W) :
  Forall (slot_holds_mask mem) ls ->
  Forall (slot_holds_mask (<[l' := Some (VWideBool m)]> mem)) ls.
Proof.
  intros H. eapply Forall_impl; [exact H|].
  intros l. apply slot_holds_mask_insert.
Qed.

Lemma slot_holds_mask_app (mem more : list (option (value W))) (l : loc) :
  slot_holds_mask mem l -> slot_holds_mask (mem ++ more) l.
Proof.
  intros [p Hp]. exists p. apply lookup_app_l_Some. exact Hp.
Qed.

Lemma CreateSelect_masks (c a b v : value W) :
  is_wide_bool a = true -> is_wide_bool b = true ->
  CreateSelect c a b = Ok v -> is_wide_bool v = true.
Proof.
  destruct c, a, b; simpl; try discriminate; intros _ _ H;
    injection H as <-; reflexivity.
Qed.

Lemma well_formed_new (native : bool) : well_formed (new_LLVM_Util W native).
Proof. repeat split; constructor. Qed.

(** Case analysis on the scrutinees of a run that is known to return. *)
Ltac returned H :=
  repeat (simpl in H;
          match type of H with
          | context [match ?x with _ => _ end] =>
              lazymatch x with
              | context [match _ with _ => _ end] => fail
              | _ => destruct x eqn:?
              end
          | context [if ?x then _ else _] =>
              lazymatch x with
              | context [match _ with _ => _ end] => fail
              | context [if _ then _ else _] => fail
              | _ => destruct x eqn:?
              end
          end; try discriminate H).

Lemma push_mask_well_formed
    (st st' : LLVM_Util W) (m : wide_bool W) (negate absolute : bool) :
  well_formed st ->
  push_mask (VWideBool m) negate absolute st = Ok (tt, st') ->
  well_formed st'.
Proof.
  destruct st as [native stack enable allocas counts loops exits mem].
  intros (Hm & Ha & Hl) Hrun. unfold push_mask in Hrun. run.
  destruct stack as [|[pm pn pc] rest].
  - injection Hrun as <-. repeat split; simpl; auto.
  - apply Forall_cons in Hm as Hm'. destruct Hm' as [Hpm _]. simpl in Hpm.
    destruct pm; try discriminate Hpm.
    destruct pn, negate, absolute; simpl in Hrun; try discriminate Hrun;
      injection Hrun as <-; repeat split; simpl; auto.
Qed.

Lemma slot_holds_mask_front
    (mem : list (option (value W))) (allocas : list loc) (l : loc) :
  Forall (slot_holds_mask mem) allocas ->
  front allocas = Some l ->
  slot_holds_mask mem l.
Proof.
  intros Ha Hl. unfold front in Hl. apply last_Some in Hl as [l' ->].
  apply Forall_app in Ha as [_ Ha]. apply Forall_cons in Ha as [Ha _]. exact Ha.
Qed.

(** What is known of a well-formed object with a non-empty mask stack
    and a function scope. *)
Ltac well_formed_top Hm Ha :=
  let Hpm := fresh "Hpm" in
  let Hm' := fresh "Hm'" in
  let Hl := fresh "Hslot" in
  let Ha' := fresh "Ha'" in
  apply Forall_cons in Hm as Hm'; destruct Hm' as [Hpm Hm'];
  apply Forall_cons in Ha as Ha'; destruct Ha' as [Hl Ha'];
  simpl in Hpm.

Lemma pop_mask_well_formed (st st' : LLVM_Util W) :
  well_formed st -> pop_mask st = Ok (tt, st') -> well_formed st'.
Proof.
  destruct st as [native stack enable allocas counts loops exits mem].
  intros (Hm & Ha & Hl) Hrun. unfold pop_mask in Hrun. run.
  destruct stack as [|mi rest]; [discriminate Hrun|]. injection Hrun as <-.
  apply Forall_cons in Hm as [_ Hm]. repeat split; simpl; auto.
Qed.

Lemma push_function_mask_well_formed
    (st st' : LLVM_Util W) (m : wide_bool W) :
  well_formed st ->
  push_function_mask (VWideBool m) st = Ok (tt, st') ->
  well_formed st'.
Proof.
  intros (Hm & Ha & Hl) Hrun. rewrite push_function_mask_Ok in Hrun.
  injection Hrun as <-. destruct st. simpl in *.
  split; [|split]; simpl.
  - apply Forall_cons. split; [reflexivity|exact Hm].
  - apply Forall_cons. split.
    + exists m. apply list_lookup_middle. reflexivity.
    + eapply Forall_impl; [exact Ha|]. intros l. apply slot_holds_mask_app.
  - rewrite Hl. reflexivity.
Qed.

Lemma pop_function_mask_well_formed (st st' : LLVM_Util W) :
  well_formed st -> pop_function_mask st = Ok (tt, st') -> well_formed st'.
Proof.
  destruct st as [native stack enable allocas counts loops exits mem].
  intros (Hm & Ha & Hl) Hrun. unfold pop_function_mask, pop_mask in Hrun. run.
  destruct stack as [|mi rest]; [discriminate Hrun|].
  destruct allocas as [|l allocas]; [discriminate Hrun|].
  destruct counts as [|cnt counts]; [discriminate Hrun|].
  injection Hrun as <-.
  apply Forall_cons in Hm as [_ Hm]. apply Forall_cons in Ha as [_ Ha].
  simpl in Hl. repeat split; simpl; auto.
Qed.

Lemma op_masked_return_well_formed (st st' : LLVM_Util W) :
  well_formed st -> op_masked_return st = Ok (tt, st') -> well_formed st'.
Proof.
  destruct st as [native stack enable allocas counts loops exits mem].
  intros (Hm & Ha & Hl) Hrun.
  unfold op_masked_return, op_load, CreateLoad, push_masking_enabled, op_store,
    pop_masking_enabled, CreateStore, incr in Hrun. run.
  destruct stack as [|[pm pn pc] rest]; [discriminate Hrun|].
  destruct allocas as [|l allocas]; [discriminate Hrun|].
  well_formed_top Hm Ha. destruct Hslot as [fm Hfm].
  destruct pm; try discriminate Hpm.
  simpl in Hfm, Hrun. rewrite Hfm in Hrun. returned Hrun; injection Hrun as <-;
    (split; [|split]; simpl;
     [exact Hm | apply slots_hold_masks_insert; exact Ha | exact Hl]).
Qed.

(** As [run], in one hypothesis and keeping [front] folded. *)
Ltac run_in H :=
  unfold mbind, M_bind, mret, M_ret, gets, modify, ASSERT, emit, defined,
         back, push_back, pop_back, empty in H;
  simpl in H.

(** The second store of [op_masked_exit]: the slot of the innermost
    function still holds a mask after the store to the shader's slot. *)
Ltac store_to_function_slot Hrun Hslot :=
  match type of Hrun with
  | context [mjoin (<[?sl := Some (VWideBool ?x)]> ?mem !! ?l)] =>
      let fm := fresh "fm" in
      let Hfm := fresh "Hfm" in
      let Hlt := fresh "Hlt" in
      destruct (slot_holds_mask_insert mem l sl x Hslot) as [fm Hfm];
      pose proof (lookup_lt_Some _ _ _ Hfm) as Hlt;
      simpl in Hfm; rewrite Hfm in Hrun; simpl in Hrun;
      rewrite ?orb_true_r in Hrun; simpl in Hrun;
      rewrite (bool_decide_eq_true_2 _ Hlt) in Hrun; simpl in Hrun
  end.

Lemma op_masked_exit_well_formed (st st' : LLVM_Util W) :
  well_formed st -> op_masked_exit st = Ok (tt, st') -> well_formed st'.
Proof.
  destruct st as [native stack enable allocas counts loops exits mem].
  intros (Hm & Ha & Hl) Hrun.
  unfold op_masked_exit, op_load, CreateLoad, push_masking_enabled, op_store,
    pop_masking_enabled, CreateStore, incr, size in Hrun. run_in Hrun.
  destruct stack as [|[pm pn pc] rest]; [discriminate Hrun|].
  destruct allocas as [|l allocas]; [discriminate Hrun|].
  well_formed_top Hm Ha. destruct pm; try discriminate Hpm.
  simpl in Hrun.
  destruct (front (l :: allocas)) as [sl|] eqn:Hfront; [|discriminate Hrun].
  destruct (slot_holds_mask_front _ _ _ Ha Hfront) as [sm Hsm].
  simpl in Hsm, Hrun. rewrite Hsm in Hrun. simpl in Hrun.
  destruct pn; simpl in Hrun; rewrite ?orb_true_r in Hrun; simpl in Hrun.
  all: pose proof (lookup_lt_Some _ _ _ Hsm) as Hlt.
  all: rewrite (bool_decide_eq_true_2 _ Hlt) in Hrun; simpl in Hrun.
  all: destruct (bool_decide (1 < S (length allocas))%nat); simpl in Hrun.
  all: try store_to_function_slot Hrun Hslot.
  all: returned Hrun; injection Hrun as <-.
  all: split; [|split]; simpl;
    [exact Hm | repeat apply slots_hold_masks_insert; exact Ha | exact Hl].
Qed.

Lemma apply_return_to_mask_stack_well_formed (st st' : LLVM_Util W) :
  well_formed st ->
  apply_return_to_mask_stack st = Ok (tt, st') ->
  well_formed st'.
Proof.
  destruct st as [native stack enable allocas counts loops exits mem].
  intros (Hm & Ha & Hl) Hrun.
  unfold apply_return_to_mask_stack, op_load, CreateLoad in Hrun. run_in Hrun.
  destruct stack as [|[pm pn pc] rest]; [discriminate Hrun|].
  destruct counts as [|cnt counts]; [discriminate Hrun|].
  destruct allocas as [|l allocas]; [discriminate Hl|].
  well_formed_top Hm Ha. destruct pm; try discriminate Hpm.
  destruct Hslot as [fm Hfm]. simpl in Hfm, Hrun.
  destruct (bool_decide (cnt > pc)); simpl in Hrun.
  - rewrite Hfm in Hrun. simpl in Hrun.
    destruct pn; simpl in Hrun; injection Hrun as <-;
      (split; [|split]; simpl;
       [apply Forall_cons; split; [reflexivity|exact Hm'] | exact Ha | exact Hl]).
  - injection Hrun as <-. split; [|split]; assumption.
Qed.

Lemma apply_exit_to_mask_stack_well_formed (st st' : LLVM_Util W) :
  well_formed st ->
  apply_exit_to_mask_stack st = Ok (tt, st') ->
  well_formed st'.
Proof.
  destruct st as [native stack enable allocas counts loops exits mem].
  intros (Hm & Ha & Hl) Hrun.
  unfold apply_exit_to_mask_stack, op_load, CreateLoad, push_masking_enabled,
    op_store, pop_masking_enabled, CreateStore, incr in Hrun. run_in Hrun.
  destruct stack as [|[pm pn pc] rest]; [discriminate Hrun|].
  destruct allocas as [|l allocas]; [discriminate Hrun|].
  well_formed_top Hm Ha. destruct pm; try discriminate Hpm.
  simpl in Hrun.
  destruct (front (l :: allocas)) as [sl|] eqn:Hfront; [|discriminate Hrun].
  destruct (slot_holds_mask_front _ _ _ Ha Hfront) as [sm Hsm].
  destruct Hslot as [fm Hfm].
  pose proof (lookup_lt_Some _ _ _ Hfm) as Hlt.
  simpl in Hsm, Hfm, Hrun. rewrite Hsm in Hrun. simpl in Hrun.
  rewrite Hfm in Hrun. simpl in Hrun.
  rewrite ?orb_true_r in Hrun. simpl in Hrun.
  rewrite (bool_decide_eq_true_2 _ Hlt) in Hrun. simpl in Hrun.
  destruct counts as [|cnt counts]; [discriminate Hrun|]. simpl in Hrun.
  destruct (bool_decide (cnt < INT_MAX)); [|discriminate Hrun]. simpl in Hrun.
  destruct (bool_decide (cnt + 1 > pc)); [|discriminate Hrun]. simpl in Hrun.
  destruct pn; simpl in Hrun; injection Hrun as <-;
    (split; [|split]; simpl;
     [apply Forall_cons; split; [reflexivity|exact Hm']
     | apply slots_hold_masks_insert; exact Ha | exact Hl]).
Qed.

Lemma run_op_well_formed (op : mask_op) (st st' : LLVM_Util W) :
  well_formed st -> run_op op st = Ok (tt, st') -> well_formed st'.
Proof.
  destruct op; simpl.
  - apply push_mask_well_formed.
  - apply pop_mask_well_formed.
  - apply push_function_mask_well_formed.
  - apply pop_function_mask_well_formed.
  - apply op_masked_return_well_formed.
  - apply op_masked_exit_well_formed.
  - apply apply_return_to_mask_stack_well_formed.
  - apply apply_exit_to_mask_stack_well_formed.
Qed.

Lemma run_ops_well_formed (ops : list mask_op) (st st' : LLVM_Util W) :
  well_formed st -> run_ops ops st = Ok (tt, st') -> well_formed st'.
Proof.
  revert st. induction ops as [|op ops IH]; intros st Hwf Hrun.
  - injection Hrun as <-. exact Hwf.
  - cbn [run_ops] in Hrun. unfold mbind, M_bind in Hrun.
    destruct (run_op op st) as [[[] st1]| |] eqn:Hop; try discriminate Hrun.
    apply (IH st1); [|exact Hrun].
    exact (run_op_well_formed op st st1 Hwf Hop).
Qed.

(** X23.  Whatever sequence of pushes, pops, function scopes, masked
    returns and exits and folds is run on a newly built object, if it
    runs to its end then every entry of the mask stack is a lane mask,
    the slot of every open function scope holds a lane mask, and there
    are as many such slots as return counts. *)
Theorem reachable_objects_are_well_formed
    (native : bool) (ops : list (mask_op (m_vector_width := W)))
    (st : LLVM_Util W) :
  run_ops ops (new_LLVM_Util W native) = Ok (tt, st) ->
  well_formed st.
Proof.
  apply run_ops_well_formed. apply well_formed_new.
Qed.

(** ** No undefined behaviour inside a function scope *)

Lemma run_op_defined_stack_ops
    (op : mask_op) (st : LLVM_Util W) (cnt : Z) (counts : list Z) :
  well_formed st ->
  m_masked_return_count_stack st = cnt :: counts ->
  cnt < INT_MAX ->
  m_masked_exit_count st < INT_MAX ->
  run_op op st <> Undefined.
Proof.
  destruct st as [native stack enable allocas counts0 loops exits mem].
  intros (Hm & Ha & Hl) Hcounts Hcnt Hexits Hrun. simpl in *. subst counts0.
  destruct allocas as [|l allocas]; [discriminate Hl|].
  apply Forall_cons in Ha as Ha'. destruct Ha' as [[fm Hfm] _].
  pose proof (lookup_lt_Some _ _ _ Hfm) as Hlt.
  destruct op as [m neg abs| |m| | | | |]; simpl in Hrun.
  - (* push_mask *)
    unfold push_mask in Hrun. run_in Hrun.
    destruct stack as [|[pm pn pc] rest]; [discriminate Hrun|].
    apply Forall_cons in Hm as [Hpm _]. simpl in Hpm.
    destruct pm; try discriminate Hpm.
    destruct pn, neg, abs; discriminate Hrun.
  - (* pop_mask *)
    unfold pop_mask in Hrun. run_in Hrun.
    destruct stack; discriminate Hrun.
  - (* push_function_mask *)
    rewrite push_function_mask_Ok in Hrun. discriminate Hrun.
  - (* pop_function_mask *)
    unfold pop_function_mask, pop_mask in Hrun. run_in Hrun.
    destruct stack; discriminate Hrun.
  - (* op_masked_return *)
    unfold op_masked_return, op_load, CreateLoad, push_masking_enabled, op_store,
      pop_masking_enabled, CreateStore, incr in Hrun. run_in Hrun.
    destruct stack as [|[pm pn pc] rest]; [discriminate Hrun|].
    apply Forall_cons in Hm as [Hpm _]. simpl in Hpm.
    destruct pm; try discriminate Hpm.
    simpl in Hfm, Hrun. rewrite Hfm in Hrun. simpl in Hrun.
    destruct pn; simpl in Hrun; rewrite ?orb_true_r in Hrun; simpl in Hrun;
      rewrite (bool_decide_eq_true_2 _ Hlt) in Hrun; simpl in Hrun;
      rewrite (bool_decide_eq_true_2 _ Hcnt) in Hrun; discriminate Hrun.
  - (* op_masked_exit *)
    unfold op_masked_exit, op_load, CreateLoad, push_masking_enabled, op_store,
      pop_masking_enabled, CreateStore, incr, size in Hrun. run_in Hrun.
    destruct stack as [|[pm pn pc] rest]; [discriminate Hrun|].
    apply Forall_cons in Hm as [Hpm _]. simpl in Hpm.
    destruct pm; try discriminate Hpm.
    simpl in Hrun.
    destruct (front (l :: allocas)) as [sl|] eqn:Hfront;
      [|unfold front in Hfront; apply last_None in Hfront; discriminate Hfront].
    destruct (slot_holds_mask_front _ _ _ Ha Hfront) as [sm Hsm].
    pose proof (lookup_lt_Some _ _ _ Hsm) as Hlt'.
    simpl in Hsm, Hrun. rewrite Hsm in Hrun. simpl in Hrun.
    assert (Hslot : slot_holds_mask mem l) by (exists fm; exact Hfm).
    destruct pn; simpl in Hrun; rewrite ?orb_true_r in Hrun; simpl in Hrun;
      rewrite (bool_decide_eq_true_2 _ Hlt') in Hrun; simpl in Hrun;
      (destruct (bool_decide (1 < S (length allocas))%nat); simpl in Hrun;
       [store_to_function_slot Hrun Hslot|]);
      rewrite (bool_decide_eq_true_2 _ Hexits) in Hrun; simpl in Hrun;
      rewrite (bool_decide_eq_true_2 _ Hcnt) in Hrun; discriminate Hrun.
  - (* apply_return_to_mask_stack *)
    unfold apply_return_to_mask_stack, op_load, CreateLoad in Hrun. run_in Hrun.
    destruct stack as [|[pm pn pc] rest]; [discriminate Hrun|].
    apply Forall_cons in Hm as [Hpm _]. simpl in Hpm.
    destruct pm; try discriminate Hpm.
    simpl in Hfm, Hrun.
    destruct (bool_decide (cnt > pc)); simpl in Hrun; [|discriminate Hrun].
    rewrite Hfm in Hrun. simpl in Hrun. destruct pn; discriminate Hrun.
  - (* apply_exit_to_mask_stack *)
    unfold apply_exit_to_mask_stack, op_load, CreateLoad, push_masking_enabled,
      op_store, pop_masking_enabled, CreateStore, incr in Hrun. run_in Hrun.
    destruct stack as [|[pm pn pc] rest]; [discriminate Hrun|].
    apply Forall_cons in Hm as [Hpm _]. simpl in Hpm.
    destruct pm; try discriminate Hpm.
    simpl in Hrun.
    destruct (front (l :: allocas)) as [sl|] eqn:Hfront;
      [|unfold front in Hfront; apply last_None in Hfront; discriminate Hfront].
    destruct (slot_holds_mask_front _ _ _ Ha Hfront) as [sm Hsm].
    simpl in Hsm, Hfm, Hrun. rewrite Hsm in Hrun. simpl in Hrun.
    rewrite Hfm in Hrun. simpl in Hrun.
    rewrite ?orb_true_r in Hrun. simpl in Hrun.
    rewrite (bool_decide_eq_true_2 _ Hlt) in Hrun. simpl in Hrun.
    rewrite (bool_decide_eq_true_2 _ Hcnt) in Hrun. simpl in Hrun.
    destruct (bool_decide (cnt + 1 > pc)); [|discriminate Hrun]. simpl in Hrun.
    destruct pn; discriminate Hrun.
Qed.

(** X24.  On a well-formed object with an open function scope whose
    return count, like the exit count, is below [INT_MAX], none of the
    operations on the mask stack has undefined behaviour: each returns
    or stops on an ASSERT.  The function scope is needed: without one,
    [apply_return_to_mask_stack] on a non-empty mask stack reads the
    back of the empty vector of return counts.  So is the bound: at
    [INT_MAX] the increment of [op_masked_return] overflows. *)
Theorem mask_operations_are_defined
    (op : mask_op) (st : LLVM_Util W) (cnt : Z) (counts : list Z) :
  well_formed st ->
  m_masked_return_count_stack st = cnt :: counts ->
  (cnt < INT_MAX ->
   m_masked_exit_count st < INT_MAX ->
   run_op op st <> Undefined) /\
  (m_mask_stack st <> [] ->
   apply_return_to_mask_stack
     (with_masked_return_count_stack [] st) = Undefined) /\
  (m_mask_stack st <> [] ->
   cnt = INT_MAX ->
   op_masked_return st = Undefined).
Proof.
  intros Hwf Hcounts. split; [|split].
  - intros Hcnt Hexits.
    exact (run_op_defined_stack_ops op st cnt counts Hwf Hcounts Hcnt Hexits).
  - intros Hstack. destruct st as [native stack enable allocas c loops exits mem].
    simpl in *. unfold apply_return_to_mask_stack. run.
    destruct stack; [contradiction|reflexivity].
  - intros Hstack ->.
    destruct st as [native stack enable allocas c loops exits mem].
    destruct Hwf as (Hm & Ha & Hl). simpl in *. subst c.
    destruct allocas as [|l allocas]; [discriminate Hl|].
    destruct stack as [|[pm pn pc] rest]; [contradiction|].
    well_formed_top Hm Ha. destruct pm; try discriminate Hpm.
    destruct Hslot as [fm Hfm]. pose proof (lookup_lt_Some _ _ _ Hfm) as Hlt.
    unfold op_masked_return, op_load, CreateLoad, push_masking_enabled, op_store,
      pop_masking_enabled, CreateStore, incr.
    run. rewrite Hfm. simpl.
    destruct pn; simpl; rewrite ?orb_true_r; simpl;
      rewrite !(bool_decide_eq_true_2 _ Hlt); reflexivity.
Qed.

End Properties.

Example push_function_mask_1111 :
  push_function_mask (VWideBool lanes_1111) (new_LLVM_Util 4 false)
  = Ok (tt, in_function).
Proof. vm_compute. reflexivity. Qed.

Example push_mask_1100 :
  push_mask (VWideBool lanes_1100) false false in_function
  = Ok (tt, in_conditional).
Proof. vm_compute. reflexivity. Qed.

(** C3.  [op_masked_return] turns off, in the innermost function's mask
    slot, exactly the lanes of the current mask (a negated entry
    resolved), keeps the other lanes, and adds one to that function's
    return count.  With four lanes, a function opened on [1111] and a
    conditional active on [1100], the slot holds [0011] and
    [masked_return_count()] is 1 after the masked return and the folds. *)
Theorem op_masked_return_clears_active_lanes :
  (forall (W : nat) (st : LLVM_Util W) (mi : MaskInfo W) (rest : list (MaskInfo W))
          (p act fm : wide_bool W) (loc_of_function_mask : loc)
          (allocas : list loc) (cnt : Z) (counts : list Z),
     m_mask_stack st = mi :: rest ->
     mask mi = VWideBool p ->
     current_mask st = Ok (VWideBool act, st) ->
     m_alloca_for_modified_mask_stack st = loc_of_function_mask :: allocas ->
     memory st !! loc_of_function_mask = Some (Some (VWideBool fm)) ->
     m_masked_return_count_stack st = cnt :: counts ->
     cnt < INT_MAX ->
     exists fm' : wide_bool W,
       op_masked_return st =
         Ok (tt, with_masked_return_count_stack ((cnt + 1) :: counts)
                   (with_memory
                      (<[loc_of_function_mask := Some (VWideBool fm')]> (memory st))
                      st)) /\
       forall lane : fin W,
         fm' !!! lane = if (act !!! lane : bool) then false else fm !!! lane) /\
  masked_return_in_conditional (new_LLVM_Util 4 false)
    = Ok ((VWideBool lanes_0011, 1), after_conditional).
Proof.
  split.
  - intros W st mi rest p act fm l allocas cnt counts.
    apply op_masked_return_clears_current_lanes.
  - vm_compute. reflexivity.
Qed.

(** C5.  [op_store] is a plain store when the mask stack is empty, the
    value is not a vector or masking is not enabled.  Otherwise it stores
    the select of the new value and the value read from the location
    under the current mask (a negated entry resolved), so a lane that is
    off keeps what it held; under [1010], storing [9, 9, 9, 9] over
    [1, 2, 3, 4] leaves [9, 2, 9, 4]. *)
Theorem op_store_keeps_inactive_lanes :
  (forall (W : nat) (st : LLVM_Util W) (val : value W) (ptr : loc),
     m_mask_stack st = [] \/
     isVectorTy val = false \/
     m_enable_masking_stack st = [] \/
     back (m_enable_masking_stack st) = Some false ->
     op_store val ptr st = CreateStore val ptr st) /\
  (forall (W : nat) (st : LLVM_Util W) (mi : MaskInfo W) (rest : list (MaskInfo W))
          (p act : wide_bool W) (val previous_value : value W) (ptr : loc),
     m_mask_stack st = mi :: rest ->
     mask mi = VWideBool p ->
     current_mask st = Ok (VWideBool act, st) ->
     isVectorTy val = true ->
     back (m_enable_masking_stack st) = Some true ->
     memory st !! ptr = Some (Some previous_value) ->
     same_type val previous_value = true ->
     exists blended_value : value W,
       CreateSelect (VWideBool act) val previous_value = Ok blended_value /\
       op_store val ptr st =
         Ok (tt, with_memory (<[ptr := Some blended_value]> (memory st)) st) /\
       forall lane : fin W,
         CreateExtractElement blended_value lane =
           if (act !!! lane : bool) then CreateExtractElement val lane
           else CreateExtractElement previous_value lane) /\
  op_store (VWideInt [# 9; 9; 9; 9]) 0%nat storing
    = Ok (tt, with_memory [Some (VWideInt [# 9; 2; 9; 4])] storing).
Proof.
  split; [|split].
  - intros W st val ptr. apply op_store_unmasked.
  - intros W st mi rest p act val previous_value ptr.
    apply op_store_masked.
  - vm_compute. reflexivity.
Qed.

(** ** The count of a pushed entry against the specification *)

(** On [after_conditional] the parent entry has count 1.  A relative push
    gives the new entry count 1 where the specification's rule says 0,
    and an absolute push gives it 0 where the rule says 1. *)
Lemma push_mask_count_differs_from_specification :
  (push_mask (VWideBool lanes_1010) false false after_conditional
     = Ok (tt, with_mask_stack
                 (Build_MaskInfo (VWideBool lanes_0010) false 1
                  :: m_mask_stack after_conditional)
                 after_conditional) /\
   1 <> spec_applied_return_mask_count false 1) /\
  (push_mask (VWideBool lanes_1010) false true after_conditional
     = Ok (tt, with_mask_stack
                 (Build_MaskInfo (VWideBool lanes_1010) false 0
                  :: m_mask_stack after_conditional)
                 after_conditional) /\
   0 <> spec_applied_return_mask_count true 1).
Proof.
  repeat split; try (vm_compute; reflexivity); vm_compute; discriminate.
Qed.

(** ** Popping an empty loop stack *)

(** C9.  [pop_mask] and [pop_function_mask] stop on an ASSERT when their
    stack is empty ([pop_mask_empty], [pop_function_mask_empty]);
    [pop_masked_loop] makes no check, and on an empty loop stack it does
    not stop on an ASSERT: it calls [pop_back] on the empty vector. *)
Theorem pop_masked_loop_unchecked (W : nat) (st : LLVM_Util W) :
  m_masked_loop_stack st = [] ->
  pop_masked_loop st = Undefined /\ pop_masked_loop st <> AssertionFailed.
Proof.
  intros H. rewrite (pop_masked_loop_empty st H). split; [reflexivity|discriminate].
Qed.

Lemma pop_masked_loop_unchecked_witness :
  m_masked_loop_stack (new_LLVM_Util 4 false) = [] /\
  pop_masked_loop (new_LLVM_Util 4 false) = Undefined /\
  pop_masked_loop (new_LLVM_Util 4 false) <> AssertionFailed.
Proof.
  split; [reflexivity|].
  apply (pop_masked_loop_unchecked 4%nat (new_LLVM_Util 4 false)). reflexivity.
Defined.

(** ** Eight lanes *)

(** With eight lanes no integer survives the round trip: the mask that
    [int_as_mask] synthesizes is an [<8 x i1>], which [mask_as_int]
    bitcasts to [i16]; and the native path bitcasts an [i16] to
    [<8 x i1>]. *)
Lemma mask_as_int_int_as_mask_eight_lanes :
  0 <= 5 < 2 ^ Z.of_nat 8 /\
  (mask ← int_as_mask (VInt 5); mask_as_int mask) (new_LLVM_Util 8 false)
    = Undefined /\
  (mask ← int_as_mask (VInt 5); mask_as_int mask) (new_LLVM_Util 8 false)
    <> Ok (VInt 5, new_LLVM_Util 8 false) /\
  (mask ← int_as_mask (VInt 5); mask_as_int mask) (new_LLVM_Util 8 true)
    <> Ok (VInt 5, new_LLVM_Util 8 true).
Proof.
  split; [split; [discriminate | reflexivity]|].
  split; [vm_compute; reflexivity|].
  split; vm_compute; discriminate.
Qed.

(** * The theorems at concrete objects *)

Lemma push_mask_blend_table_witness :
  push_mask (VWideBool lanes_1010) false false
      (one_entry (Build_MaskInfo (VWideBool lanes_1100) false 0))
    = Ok (tt, with_mask_stack
                [Build_MaskInfo (VWideBool lanes_1000) false 0;
                 Build_MaskInfo (VWideBool lanes_1100) false 0]
                (one_entry (Build_MaskInfo (VWideBool lanes_1100) false 0))) /\
  push_mask (VWideBool lanes_1010) true false
      (one_entry (Build_MaskInfo (VWideBool lanes_1100) false 0))
    = Ok (tt, with_mask_stack
                [Build_MaskInfo (VWideBool lanes_0100) false 0;
                 Build_MaskInfo (VWideBool lanes_1100) false 0]
                (one_entry (Build_MaskInfo (VWideBool lanes_1100) false 0))) /\
  push_mask (VWideBool lanes_1010) false false
      (one_entry (Build_MaskInfo (VWideBool lanes_1100) true 0))
    = Ok (tt, with_mask_stack
                [Build_MaskInfo (VWideBool lanes_0010) false 0;
                 Build_MaskInfo (VWideBool lanes_1100) true 0]
                (one_entry (Build_MaskInfo (VWideBool lanes_1100) true 0))) /\
  push_mask (VWideBool lanes_1010) true false
      (one_entry (Build_MaskInfo (VWideBool lanes_1100) true 0))
    = Ok (tt, with_mask_stack
                [Build_MaskInfo (VWideBool lanes_1110) true 0;
                 Build_MaskInfo (VWideBool lanes_1100) true 0]
                (one_entry (Build_MaskInfo (VWideBool lanes_1100) true 0))) /\
  push_mask (VWideBool lanes_1010) true true
      (one_entry (Build_MaskInfo (VWideBool lanes_1100) false 0))
    = AssertionFailed.
Proof.
  split; [|split; [|split; [|split]]].
  - exact (push_mask_blend_table
             (one_entry (Build_MaskInfo (VWideBool lanes_1100) false 0))
             lanes_1100 lanes_1010 false false false 0 [] eq_refl).
  - exact (push_mask_blend_table
             (one_entry (Build_MaskInfo (VWideBool lanes_1100) false 0))
             lanes_1100 lanes_1010 false true false 0 [] eq_refl).
  - exact (push_mask_blend_table
             (one_entry (Build_MaskInfo (VWideBool lanes_1100) true 0))
             lanes_1100 lanes_1010 true false false 0 [] eq_refl).
  - exact (push_mask_blend_table
             (one_entry (Build_MaskInfo (VWideBool lanes_1100) true 0))
             lanes_1100 lanes_1010 true true false 0 [] eq_refl).
  - exact (push_mask_blend_table
             (one_entry (Build_MaskInfo (VWideBool lanes_1100) false 0))
             lanes_1100 lanes_1010 false true true 0 [] eq_refl).
Defined.

Lemma push_mask_applied_return_mask_count_witness :
  (exists new : MaskInfo 4,
     push_mask (VWideBool lanes_1010) false false after_conditional
       = Ok (tt, with_mask_stack (new :: m_mask_stack after_conditional)
                   after_conditional) /\
     applied_return_mask_count new = 1) /\
  (exists (new : MaskInfo 4) (st' : LLVM_Util 4),
     push_function_mask (VWideBool lanes_1010) after_conditional = Ok (tt, st') /\
     m_mask_stack st' = new :: m_mask_stack after_conditional /\
     applied_return_mask_count new = 0 /\
     m_masked_return_count_stack st'
       = 0 :: m_masked_return_count_stack after_conditional).
Proof.
  exact (push_mask_applied_return_mask_count after_conditional
           lanes_0011 lanes_1010 false false false 1 [] eq_refl eq_refl).
Defined.

Lemma op_masked_return_clears_active_lanes_witness :
  exists fm' : wide_bool 4,
    op_masked_return in_conditional =
      Ok (tt, with_masked_return_count_stack [0 + 1]
                (with_memory
                   (<[0%nat := Some (VWideBool fm')]> (memory in_conditional))
                   in_conditional)) /\
    forall lane : fin 4,
      fm' !!! lane = if (lanes_1100 !!! lane : bool) then false
                     else lanes_1111 !!! lane.
Proof.
  apply (proj1 op_masked_return_clears_active_lanes 4%nat in_conditional
           (Build_MaskInfo (VWideBool lanes_1100) false 0)
           [Build_MaskInfo (VWideBool lanes_1111) false 0]
           lanes_1100 lanes_1100 lanes_1111 0%nat [] 0 []);
    reflexivity.
Defined.

Example in_nested_function_reached :
  (push_shader_instance (VWideBool lanes_1111);;
   push_function_mask (VWideBool lanes_1111);;
   push_mask (VWideBool lanes_1100) false false) (new_LLVM_Util 4 false)
  = Ok (tt, in_nested_function).
Proof. vm_compute. reflexivity. Qed.

Lemma op_masked_exit_clears_current_lanes_witness :
  exists st' : LLVM_Util 4,
    op_masked_exit in_nested_function = Ok (tt, st') /\
    (exists sm' : wide_bool 4,
       memory st' !! 0%nat = Some (Some (VWideBool sm')) /\
       forall lane : fin 4,
         sm' !!! lane = if (lanes_1100 !!! lane : bool) then false
                        else lanes_1111 !!! lane) /\
    m_masked_exit_count st' = 0 + 1 /\
    m_masked_return_count_stack st' = [0 + 1; 0].
Proof.
  destruct (op_masked_exit_clears_current_lanes in_nested_function
              (Build_MaskInfo (VWideBool lanes_1100) false 0)
              [Build_MaskInfo (VWideBool lanes_1111) false 0;
               Build_MaskInfo (VWideBool lanes_1111) false 0]
              lanes_1100 lanes_1100 lanes_1111 lanes_1111 0%nat 1%nat [0%nat] 0 [0]
              eq_refl eq_refl eq_refl eq_refl eq_refl eq_refl eq_refl eq_refl
              eq_refl eq_refl)
    as (st' & Hrun & Hshader & _ & _ & Hexit & Hcounts & _).
  exists st'. split; [exact Hrun|]. split; [exact Hshader|].
  split; [exact Hexit | exact Hcounts].
Defined.

Lemma op_store_keeps_inactive_lanes_witness :
  exists blended_value : value 4,
    CreateSelect (VWideBool lanes_1010) (VWideInt [# 9; 9; 9; 9])
                 (VWideInt [# 1; 2; 3; 4]) = Ok blended_value /\
    op_store (VWideInt [# 9; 9; 9; 9]) 0%nat storing =
      Ok (tt, with_memory (<[0%nat := Some blended_value]> (memory storing))
                storing) /\
    forall lane : fin 4,
      CreateExtractElement blended_value lane =
        if (lanes_1010 !!! lane : bool)
        then CreateExtractElement (VWideInt [# 9; 9; 9; 9]) lane
        else CreateExtractElement (VWideInt [# 1; 2; 3; 4]) lane.
Proof.
  apply (proj1 (proj2 op_store_keeps_inactive_lanes) 4%nat storing
           (Build_MaskInfo (VWideBool lanes_1010) false 0) []
           lanes_1010 lanes_1010 (VWideInt [# 9; 9; 9; 9])
           (VWideInt [# 1; 2; 3; 4]) 0%nat);
    reflexivity.
Defined.

Example op_masked_return_in_conditional :
  op_masked_return in_conditional = Ok (tt, returned_in_conditional).
Proof. vm_compute. reflexivity. Qed.

Lemma apply_return_to_mask_stack_once_witness :
  apply_return_to_mask_stack returned_in_conditional
    = Ok (tt, folded_in_conditional) /\
  current_mask folded_in_conditional
    = Ok (VWideBool (lanes_and lanes_1100 lanes_0011), folded_in_conditional) /\
  apply_return_to_mask_stack folded_in_conditional
    = Ok (tt, folded_in_conditional).
Proof.
  destruct (apply_return_to_mask_stack_once returned_in_conditional
              (Build_MaskInfo (VWideBool lanes_1100) false 0)
              [Build_MaskInfo (VWideBool lanes_1111) false 0]
              lanes_1100 lanes_1100 1 [] eq_refl eq_refl eq_refl eq_refl)
    as (Hfold & _ & Hagain).
  assert (Hrun : apply_return_to_mask_stack returned_in_conditional
                 = Ok (tt, folded_in_conditional)) by reflexivity.
  split; [exact Hrun|]. split; [reflexivity|].
  exact (Hagain folded_in_conditional Hrun).
Defined.

Lemma mask_as_int_int_as_mask_witness :
  (mask ← int_as_mask (VInt 43690); mask_as_int mask) (new_LLVM_Util 16 false)
    = Ok (VInt 43690, new_LLVM_Util 16 false) /\
  (mask ← int_as_mask (VInt 43690); mask_as_int mask) (new_LLVM_Util 16 true)
    = Ok (VInt 43690, new_LLVM_Util 16 true).
Proof.
  split.
  - apply (mask_as_int_int_as_mask (new_LLVM_Util 16 false) 43690 eq_refl).
    split; [discriminate | reflexivity].
  - apply (mask_as_int_int_as_mask (new_LLVM_Util 16 true) 43690 eq_refl).
    split; [discriminate | reflexivity].
Defined.

Lemma negated_push_yields_complement_witness :
  negated_push_current_pop lanes_1100 (new_LLVM_Util 4 false)
    = Ok (VWideBool lanes_0011, new_LLVM_Util 4 false) /\
  negated_push_current_pop lanes_1010 after_conditional
    = Ok (VWideBool [# false; false; false; true], after_conditional).
Proof.
  split.
  - exact (proj1 (negated_push_yields_complement (new_LLVM_Util 4 false) lanes_1100)
             eq_refl).
  - exact (proj1 (proj2 (negated_push_yields_complement after_conditional lanes_1010))
             (Build_MaskInfo (VWideBool lanes_0011) false 1) [] lanes_0011 lanes_0011
             eq_refl eq_refl eq_refl).
Defined.

Lemma pending_signal_queries_witness :
  masked_break_count (new_LLVM_Util 4 false) = Ok (0, new_LLVM_Util 4 false) /\
  masked_continue_count (new_LLVM_Util 4 false) = Ok (0, new_LLVM_Util 4 false) /\
  masked_return_count (new_LLVM_Util 4 false) = AssertionFailed /\
  masked_return_count after_conditional = Ok (1, after_conditional).
Proof.
  destruct (pending_signal_queries (new_LLVM_Util 4 false))
    as (Hloops & _ & Hnone & _).
  destruct (Hloops eq_refl) as [Hb Hc].
  split; [|split; [|split]].
  - exact Hb.
  - exact Hc.
  - exact (Hnone eq_refl).
  - exact (proj2 (proj2 (proj2 (pending_signal_queries after_conditional)))
             1 [] eq_refl).
Defined.

(** * The further properties on the scenarios *)

Lemma run_return_in_conditional :
  run_ops return_in_conditional (new_LLVM_Util 4 false)
  = Ok (tt, after_conditional).
Proof. vm_compute. reflexivity. Qed.

Lemma well_formed_in_conditional : well_formed in_conditional.
Proof.
  split; [|split].
  - repeat constructor.
  - repeat constructor. exists lanes_1111. reflexivity.
  - reflexivity.
Qed.

Lemma push_mask_pop_mask_witness :
  (push_mask (VWideBool lanes_1100) false false;; pop_mask) in_function
  = Ok (tt, in_function).
Proof.
  apply (push_mask_pop_mask in_function lanes_1100 false false).
  right. split; [reflexivity|].
  exists lanes_1111, false, 0, []. reflexivity.
Defined.


Lemma masked_return_then_fold_turns_lanes_off_witness :
  exists st' : LLVM_Util 4,
    (op_masked_return;; apply_return_to_mask_stack) in_conditional = Ok (tt, st') /\
    current_mask st' = Ok (VWideBool all_off, st') /\
    masked_return_count st' = Ok (0 + 1, st').
Proof.
  apply (masked_return_then_fold_turns_lanes_off in_conditional
           lanes_1100 lanes_1111 false 0
           [Build_MaskInfo (VWideBool lanes_1111) false 0] 0%nat [] 0 []);
    try reflexivity; lia.
Defined.



Lemma op_masked_break_clears_condition_lanes_witness :
  exists (cond' : wide_bool 4) (st' : LLVM_Util 4),
    st' = with_masked_loop_stack
            [Build_LoopInfo (Some 1%nat) (Some 2%nat) (0 + 1) 0]
            (with_memory (<[1%nat := Some (VWideBool cond')]> (memory in_loop))
                         in_loop) /\
    op_masked_break in_loop = Ok (tt, st') /\
    masked_break_count st' = Ok (0 + 1, st') /\
    forall lane : fin 4,
      cond' !!! lane =
        if (lanes_1100 !!! lane : bool) then false else lanes_1111 !!! lane.
Proof.
  apply (proj2 (op_masked_break_clears_condition_lanes in_loop
                  lanes_1100 lanes_1111 false 0
                  [Build_MaskInfo (VWideBool lanes_1111) false 0]
                  1%nat (Some 2%nat) 0 0 [] eq_refl));
    try reflexivity; lia.
Defined.

Lemma op_masked_continue_sets_continue_lanes_witness :
  exists (cont' : wide_bool 4) (st' : LLVM_Util 4),
    st' = with_masked_loop_stack
            [Build_LoopInfo (Some 1%nat) (Some 2%nat) 0 (0 + 1)]
            (with_memory (<[2%nat := Some (VWideBool cont')]> (memory in_loop))
                         in_loop) /\
    op_masked_continue in_loop = Ok (tt, st') /\
    masked_continue_count st' = Ok (0 + 1, st') /\
    forall lane : fin 4,
      cont' !!! lane = lanes_1100 !!! lane || vreplicate 4 false !!! lane.
Proof.
  apply (proj2 (op_masked_continue_sets_continue_lanes in_loop
                  lanes_1100 (vreplicate 4 false) false 0
                  [Build_MaskInfo (VWideBool lanes_1111) false 0]
                  (Some 1%nat) 2%nat 0 0 [] eq_refl));
    try reflexivity; lia.
Defined.

Lemma apply_break_to_mask_stack_narrows_witness :
  exists st' : LLVM_Util 4,
    apply_break_to_mask_stack in_loop = Ok (tt, st') /\
    current_mask st' = Ok (VWideBool (lanes_and lanes_1100 lanes_1111), st') /\
    m_masked_loop_stack st' = m_masked_loop_stack in_loop /\
    apply_break_to_mask_stack st' = Ok (tt, st').
Proof.
  apply (proj2 (proj2 (apply_break_to_mask_stack_narrows in_loop
                         lanes_1100 false 0
                         [Build_MaskInfo (VWideBool lanes_1111) false 0] eq_refl))
           1%nat (Some 2%nat) 0 0 [] lanes_1111);
    reflexivity.
Defined.

Lemma apply_continue_to_mask_stack_narrows_witness :
  exists st' : LLVM_Util 4,
    apply_continue_to_mask_stack in_loop = Ok (tt, st') /\
    current_mask st'
      = Ok (VWideBool (lanes_without lanes_1100 (vreplicate 4 false)), st') /\
    m_masked_loop_stack st' = m_masked_loop_stack in_loop /\
    apply_continue_to_mask_stack st' = Ok (tt, st').
Proof.
  apply (proj2 (apply_continue_to_mask_stack_narrows in_loop
                  lanes_1100 false 0
                  [Build_MaskInfo (VWideBool lanes_1111) false 0] eq_refl)
           (Some 1%nat) 2%nat 0 0 [] (vreplicate 4 false));
    reflexivity.
Defined.

Lemma masked_break_or_continue_then_fold_turns_lanes_off_witness :
  (exists st' : LLVM_Util 4,
     (op_masked_break;; apply_break_to_mask_stack) in_loop = Ok (tt, st') /\
     current_mask st' = Ok (VWideBool all_off, st')) /\
  (exists st' : LLVM_Util 4,
     (op_masked_continue;; apply_continue_to_mask_stack) in_loop = Ok (tt, st') /\
     current_mask st' = Ok (VWideBool all_off, st')).
Proof.
  split.
  - apply (proj1 (masked_break_or_continue_then_fold_turns_lanes_off in_loop
                    lanes_1100 lanes_1111 false 0
                    [Build_MaskInfo (VWideBool lanes_1111) false 0]
                    1%nat 0 0 [] eq_refl eq_refl) (Some 2%nat));
      reflexivity.
  - apply (proj2 (masked_break_or_continue_then_fold_turns_lanes_off in_loop
                    lanes_1100 (vreplicate 4 false) false 0
                    [Build_MaskInfo (VWideBool lanes_1111) false 0]
                    2%nat 0 0 [] eq_refl eq_refl) (Some 1%nat));
      reflexivity.
Defined.

Lemma apply_exit_to_mask_stack_narrows_witness :
  exists st' : LLVM_Util 4,
    apply_exit_to_mask_stack in_nested_function = Ok (tt, st') /\
    memory st'
      = <[1%nat := Some (VWideBool (lanes_and lanes_1111 lanes_1111))]>
          (memory in_nested_function) /\
    m_masked_return_count_stack st' = [0 + 1; 0] /\
    current_mask st'
      = Ok (VWideBool (lanes_and lanes_1100 (lanes_and lanes_1111 lanes_1111)),
            st') /\
    apply_return_to_mask_stack st' = Ok (tt, st').
Proof.
  apply (proj1 (apply_exit_to_mask_stack_narrows in_nested_function
                  lanes_1100 lanes_1111 lanes_1111 false 0
                  [Build_MaskInfo (VWideBool lanes_1111) false 0;
                   Build_MaskInfo (VWideBool lanes_1111) false 0]
                  0%nat 1%nat [0%nat] 0 [0]
                  eq_refl eq_refl eq_refl eq_refl eq_refl eq_refl eq_refl)).
  lia.
Defined.

Lemma apply_return_to_narrows_witness :
  apply_return_to (VWideBool lanes_1100) after_conditional
  = Ok (VWideBool (lanes_and lanes_1100 lanes_0011), after_conditional).
Proof.
  apply (proj1 (apply_return_to_narrows after_conditional lanes_1100 lanes_0011
                  0%nat [] 1 [] eq_refl eq_refl eq_refl)).
  lia.
Defined.

Lemma masked_loop_counts_are_per_loop_witness :
  (exists st' : LLVM_Util 4,
     push_masked_loop (Some 1%nat) None in_loop = Ok (tt, st') /\
     masked_break_count st' = Ok (0, st') /\
     masked_continue_count st' = Ok (0, st')) /\
  (exists cond' : wide_bool 4,
     (push_masked_loop (Some 1%nat) None;; op_masked_break;; pop_masked_loop) in_loop
       = Ok (tt, with_memory (<[1%nat := Some (VWideBool cond')]> (memory in_loop))
                   in_loop)).
Proof.
  apply (masked_loop_counts_are_per_loop in_loop lanes_1100 lanes_1111 false 0
           [Build_MaskInfo (VWideBool lanes_1111) false 0] 1%nat None);
    reflexivity.
Defined.

Lemma int_as_mask_lanes_are_bits_witness :
  (mask ← int_as_mask (VInt 5); test_mask_lane mask 2) (new_LLVM_Util 4 false)
    = Ok (VBool (Z.testbit 5 2), new_LLVM_Util 4 false) /\
  (mask ← int_as_mask (VInt 5); test_mask_lane mask 4) (new_LLVM_Util 4 false)
    = Undefined.
Proof.
  split.
  - apply (proj1 (int_as_mask_lanes_are_bits (new_LLVM_Util 4 false) 5 2
                    eq_refl ltac:(lia))).
    simpl. lia.
  - apply (proj2 (int_as_mask_lanes_are_bits (new_LLVM_Util 4 false) 5 4
                    eq_refl ltac:(lia))).
    simpl. lia.
Defined.

Lemma int_as_mask_mask_as_int_witness :
  exists z : Z,
    mask_as_int (VWideBool lanes_2_5_15) (new_LLVM_Util 16 true)
      = Ok (VInt z, new_LLVM_Util 16 true) /\
    0 <= z < 2 ^ 16 /\
    (forall lane : fin 16, Z.testbit z (Z.of_nat lane) = lanes_2_5_15 !!! lane) /\
    int_as_mask (VInt z) (new_LLVM_Util 16 true)
      = Ok (VWideBool lanes_2_5_15, new_LLVM_Util 16 true).
Proof.
  exact (int_as_mask_mask_as_int (new_LLVM_Util 16 true) lanes_2_5_15 eq_refl).
Defined.

Lemma test_if_mask_is_non_zero_some_lane_on_witness :
  (exists b : bool,
     test_if_mask_is_non_zero (VWideBool lanes_0010) (new_LLVM_Util 4 false)
       = Ok (VBool b, new_LLVM_Util 4 false) /\
     (b = true <-> exists lane : fin 4, lanes_0010 !!! lane = true)) /\
  test_if_mask_is_non_zero (VWideBool [# true; false]) (new_LLVM_Util 2 false)
    = AssertionFailed.
Proof.
  split.
  - apply (proj1 (test_if_mask_is_non_zero_some_lane_on
                    (new_LLVM_Util 4 false) lanes_0010)).
    left. reflexivity.
  - apply (proj2 (test_if_mask_is_non_zero_some_lane_on
                    (new_LLVM_Util 2 false) [# true; false])); lia.
Defined.

Lemma test_if_mask_has_any_on_or_off_sixteen_lanes_witness :
  (exists any_on any_off : bool,
     test_if_mask_has_any_on_or_off (VWideBool lanes_2_5_15) (new_LLVM_Util 16 true)
       = Ok ((VBool any_on, VBool any_off), new_LLVM_Util 16 true) /\
     (any_on = true <-> exists lane : fin 16, lanes_2_5_15 !!! lane = true) /\
     (any_off = true <-> exists lane : fin 16, lanes_2_5_15 !!! lane = false)) /\
  test_if_mask_has_any_on_or_off (VWideBool lanes_0010) (new_LLVM_Util 4 false)
    = AssertionFailed.
Proof.
  split.
  - exact (proj1 (test_if_mask_has_any_on_or_off_sixteen_lanes
                    (new_LLVM_Util 16 true) lanes_2_5_15) eq_refl).
  - apply (proj2 (test_if_mask_has_any_on_or_off_sixteen_lanes
                    (new_LLVM_Util 4 false) lanes_0010)).
    lia.
Defined.

Lemma op_1st_active_lane_of_lowest_lane_witness :
  (exists first : fin 16,
     op_1st_active_lane_of (VWideBool lanes_2_5_15) (new_LLVM_Util 16 true)
       = Ok (VInt16 (Z.of_nat first), new_LLVM_Util 16 true) /\
     lanes_2_5_15 !!! first = true /\
     forall lane : fin 16, (lane < first)%nat -> lanes_2_5_15 !!! lane = false) /\
  op_1st_active_lane_of (VWideBool (vreplicate 16 false)) (new_LLVM_Util 16 true)
    = Undefined /\
  op_1st_active_lane_of (VWideBool lanes_0010) (new_LLVM_Util 4 false)
    = AssertionFailed.
Proof.
  split; [|split].
  - apply (proj2 (proj2 (op_1st_active_lane_of_lowest_lane
                           (new_LLVM_Util 16 true) lanes_2_5_15)) eq_refl).
    exists 2%fin. reflexivity.
  - apply (proj1 (proj2 (op_1st_active_lane_of_lowest_lane
                           (new_LLVM_Util 16 true) (vreplicate 16 false))) eq_refl).
    intros lane. apply vlookup_replicate.
  - apply (proj1 (op_1st_active_lane_of_lowest_lane
                    (new_LLVM_Util 4 false) lanes_0010)).
    lia.
Defined.

Lemma op_lanes_that_match_masked_lanes_witness :
  op_lanes_that_match_masked (VWideInt [# 1; 2; 3; 4]) (VWideInt [# 1; 2; 3; 4])
    (VWideBool lanes_1100) (new_LLVM_Util 4 false)
    = AssertionFailed /\
  op_lanes_that_match_masked (VInt 3) (VInt 3)
    (VWideBool lanes_1100) (new_LLVM_Util 4 false)
    = AssertionFailed.
Proof.
  split.
  - exact (proj1 (proj2 (op_lanes_that_match_masked_lanes (new_LLVM_Util 4 false)
                           (VWideInt [# 1; 2; 3; 4]) (VWideInt [# 1; 2; 3; 4])
                           0 [# 1; 2; 3; 4] lanes_1100)) eq_refl).
  - exact (proj2 (proj2 (op_lanes_that_match_masked_lanes (new_LLVM_Util 4 false)
                           (VInt 3) (VInt 3) 0 [# 1; 2; 3; 4] lanes_1100)) eq_refl).
Defined.

Lemma negate_mask_resolves_negated_entry_witness :
  current_mask (one_entry (Build_MaskInfo (VWideBool lanes_1100) true 0))
  = negate_mask (VWideBool lanes_1100)
      (one_entry (Build_MaskInfo (VWideBool lanes_1100) true 0)) /\
  negate_mask (VInt 3) (new_LLVM_Util 4 false) = AssertionFailed.
Proof.
  split.
  - exact (proj1 (proj2 (negate_mask_resolves_negated_entry
                           (one_entry (Build_MaskInfo (VWideBool lanes_1100) true 0))
                           lanes_1100 0 [])) eq_refl).
  - exact (proj2 (proj2 (negate_mask_resolves_negated_entry
                           (new_LLVM_Util 4 false) lanes_1100 0 []))
             (VInt 3) eq_refl).
Defined.

Lemma reachable_objects_are_well_formed_witness : well_formed after_conditional.
Proof.
  exact (reachable_objects_are_well_formed false return_in_conditional
           after_conditional run_return_in_conditional).
Defined.

Lemma mask_operations_are_defined_witness :
  run_op MaskedReturn in_conditional <> Undefined /\
  apply_return_to_mask_stack (with_masked_return_count_stack [] in_conditional)
    = Undefined.
Proof.
  destruct (mask_operations_are_defined MaskedReturn in_conditional 0 []
              well_formed_in_conditional eq_refl) as (Hdefined & Hscope & _).
  split.
  - apply Hdefined; reflexivity.
  - apply Hscope. discriminate.
Defined.
